(** * zeabur-monitor: session authentication and usage aggregation

    A shallow embedding of [server.js].  The request handlers are modelled as
    functions over an explicit world: the in-memory session table, the
    process environment and the three JSON documents of the configuration
    directory.  Logging ([console.log], [console.error]) has no effect on
    that world and is left out, except where the formatting of a log line
    can throw.

    Conventions.
    - A JavaScript string is its sequence of UTF-16 code units ([jsstring]).
    - A JavaScript number is an IEEE 754 binary64 value ([float]), with the
      operations of the hardware.
    - A value of a request body, of an upstream response or of a stored
      document is any value [JSON.parse] builds ([jsvalue]).
    - [new Date().toISOString()] and [crypto.randomBytes] are inputs of the
      functions that call them.
    - A file of the configuration directory holds a JSON text or a text
      that is none.  A JSON text is identified with the value it parses to,
      seen as its file is read: the session table as a map of records
      [{ password, createdAt, lastAccessedAt }], the catalog as an array,
      the password document by its [password] property.  The value that is
      read back from the text [JSON.stringify] writes is given by
      [JSON_image].
    - The usage report of the platform is typed as its GraphQL schema has
      it: [id] is a string and [usageOfEntity] a list of numbers. *)

From Stdlib Require Import ZArith NArith QArith Qround String Ascii List Lia.
From Stdlib Require Import DecimalString DecimalNat Lqa Floats.
From stdpp Require Import base option list gmap.

#[local] Set Warnings "-inexact-float".

Close Scope Q_scope.
Open Scope N_scope.
Open Scope list_scope.

(** ** JavaScript strings *)

Module JsString.

Abbreviation jsstring := (list N).

(** The code units of an ASCII literal. *)
Definition js (s : string) : jsstring :=
  (fun a => N_of_ascii a) <$> list_ascii_of_string s.

(** [!s] for a string: only the empty string is falsy. *)
Definition truthy (s : jsstring) : bool :=
  match s with [] => false | _ => true end.

(** [!v] for a value that is a string or [undefined]. *)
Definition truthy_opt (v : option jsstring) : bool :=
  match v with Some s => truthy s | None => false end.

(** [s.split(sep)] for a one-unit separator. *)
Fixpoint split (sep : N) (s : jsstring) : list jsstring :=
  match s with
  | [] => [[]]
  | c :: r =>
      if c =? sep then [] :: split sep r
      else match split sep r with
           | [] => [[c]]
           | x :: xs => (c :: x) :: xs
           end
  end.

(** [s.indexOf(c)] for a one-unit needle; [None] stands for [-1]. *)
Fixpoint indexOf (c : N) (s : jsstring) : option nat :=
  match s with
  | [] => None
  | d :: r => if d =? c then Some O else S <$> indexOf c r
  end.

(** WhiteSpace and LineTerminator code units of ECMAScript, the ones
    [String.prototype.trim] strips. *)
Definition is_space (c : N) : bool :=
  ((9 <=? c) && (c <=? 13)) || (c =? 32) || (c =? 160) || (c =? 5760)
  || ((8192 <=? c) && (c <=? 8202)) || (c =? 8232) || (c =? 8233)
  || (c =? 8239) || (c =? 8287) || (c =? 12288) || (c =? 65279).

Fixpoint trimStart (s : jsstring) : jsstring :=
  match s with
  | [] => []
  | c :: r => if is_space c then trimStart r else s
  end.

Definition trim (s : jsstring) : jsstring :=
  rev (trimStart (rev (trimStart s))).

(** [s.startsWith(p)] *)
Fixpoint startsWith (p s : jsstring) : bool :=
  match p, s with
  | [], _ => true
  | _ :: _, [] => false
  | a :: p', b :: s' => (a =? b) && startsWith p' s'
  end.

(** [s.substring(n)] *)
Definition substring (n : nat) (s : jsstring) : jsstring := drop n s.

(** [s.length] *)
Definition jslength (s : jsstring) : nat := length s.

(** [buf.toString('hex')] for a buffer of bytes. *)
Definition hex_digit (d : N) : N :=
  if d <? 10 then 48 + d else 87 + d.

Definition toHex (bytes : list N) : jsstring :=
  flat_map (fun b => [hex_digit (b / 16); hex_digit (b mod 16)]) bytes.

End JsString.
Export JsString.

(** ** Numbers

    The arithmetic of the code is the arithmetic of [float].  The functions
    of [Math] and the reading of a numeric string are defined through the
    exact rational value of a number. *)

Module Number.

(** The number nearest to an integer, and to a quotient of two positive
    integers (round to nearest, ties to even). *)
Definition of_Z (z : Z) : float :=
  SF2Prim (binary_normalize prec emax z 0 false).

Definition of_ratio (n d : positive) : float :=
  SF2Prim (SFdiv prec emax (S754_finite false n 0) (S754_finite false d 0)).

(** The exact value of a finite number. *)
Definition exact (x : float) : option Q :=
  match Prim2SF x with
  | S754_zero _ => Some 0%Q
  | S754_finite s m e =>
      Some (inject_Z (if s then Zneg m else Zpos m) * Qpower 2 e)%Q
  | S754_infinity _ | S754_nan => None
  end.

(** An integral result: zero takes the sign of the argument. *)
Definition integral (x : float) (n : Z) : float :=
  if (n =? 0)%Z then (if get_sign x then neg_zero else zero) else of_Z n.

(** [Math.ceil(x)]: the least integer that is not below [x]. *)
Definition Math_ceil (x : float) : float :=
  match exact x with
  | Some q => integral x (Qceiling q)
  | None => x
  end.

(** [Math.round(x)]: the integer nearest to [x], the greater one on a
    tie. *)
Definition Math_round (x : float) : float :=
  match exact x with
  | Some q => integral x (Qfloor (q + (1 # 2))%Q)
  | None => x
  end.

(** [!x] is true for zero and NaN. *)
Definition truthy_number (x : float) : bool := negb (is_zero x || is_nan x).

(** *** The value of a digit and of a run of digits *)

Definition digit_in (radix : Z) (c : N) : option Z :=
  let v := if (48 <=? c) && (c <=? 57) then Some (Z.of_N c - 48)%Z
           else if (97 <=? c) && (c <=? 122) then Some (Z.of_N c - 87)%Z
           else if (65 <=? c) && (c <=? 90) then Some (Z.of_N c - 55)%Z
           else None in
  match v with
  | Some d => if (d <? radix)%Z then Some d else None
  | None => None
  end.

(** The number spelled by the longest prefix of digits, [None] when there is
    no digit. *)
Fixpoint digits_prefix (radix : Z) (acc : option Z) (s : jsstring) : option Z :=
  match s with
  | [] => acc
  | c :: r =>
      match digit_in radix c with
      | Some d => digits_prefix radix (Some (default 0 acc * radix + d)%Z) r
      | None => acc
      end
  end.

(** [parseInt(s)] without a radix; [None] is [NaN], and the integer is exact
    (it is not rounded to a double). *)
Definition parseInt (s : jsstring) : option Z :=
  let s1 := trimStart s in
  let signed := match s1 with
                | c :: r => if c =? 45 then (true, r)
                            else if c =? 43 then (false, r)
                            else (false, s1)
                | [] => (false, s1)
                end in
  let s3 := match snd signed with
            | z :: x :: r => if (z =? 48) && ((x =? 120) || (x =? 88))
                             then (16%Z, r)
                             else (10%Z, snd signed)
            | _ => (10%Z, snd signed)
            end in
  (fun z => if fst signed then (- z)%Z else z)
    <$> digits_prefix (fst s3) None (snd s3).

(** *** [StringToNumber] *)

(** The digits of a radix at the head of a string, and what follows. *)
Fixpoint span_digits (radix : Z) (s : jsstring) : jsstring * jsstring :=
  match s with
  | [] => ([], [])
  | c :: r =>
      match digit_in radix c with
      | Some _ => let '(ds, rest) := span_digits radix r in (c :: ds, rest)
      | None => ([], s)
      end
  end.

Definition digits_value (radix : Z) (ds : jsstring) : Z :=
  default 0%Z (digits_prefix radix None ds).

(** The whole string is a run of one digit or more. *)
Definition all_digits (radix : Z) (s : jsstring) : option Z :=
  match span_digits radix s with
  | ((_ :: _) as ds, []) => Some (digits_value radix ds)
  | _ => None
  end.

(** ExponentPart without its [e]: an optional sign and digits. *)
Definition exponent_part (s : jsstring) : option Z :=
  match s with
  | 43 :: r => all_digits 10 r
  | 45 :: r => Z.opp <$> all_digits 10 r
  | _ => all_digits 10 s
  end.

(** StrUnsignedDecimalLiteral other than [Infinity]: the mantissa [m] and
    the exponent [e] of the value [m * 10^e]. *)
Definition unsigned_decimal (s : jsstring) : option (Z * Z) :=
  let '(ip, r1) := span_digits 10 s in
  let '(fp, r2) := match r1 with
                   | 46 :: r => span_digits 10 r
                   | _ => ([], r1)
                   end in
  match ip ++ fp with
  | [] => None
  | ds =>
      let m := digits_value 10 ds in
      let scale := Z.of_nat (length fp) in
      match r2 with
      | [] => Some (m, (- scale)%Z)
      | c :: r =>
          if (c =? 101) || (c =? 69)
          then (fun e => (m, (e - scale)%Z)) <$> exponent_part r
          else None
      end
  end.

(** The number nearest to [m * 10^e] for [m >= 0].  Beyond the bounds the
    value is above every finite number, or below half of the least positive
    one. *)
Definition of_decimal (m e : Z) : float :=
  match m with
  | Zpos p =>
      if (400 <? e)%Z then infinity
      else if (e + Z.log2 m + 1 <? -400)%Z then zero
      else match e with
           | Zneg k => of_ratio p (10 ^ k)%positive
           | _ => of_Z (m * 10 ^ e)%Z
           end
  | _ => zero
  end.

Definition Infinity_text : jsstring := js "Infinity".

Definition unsigned_number (s : jsstring) : float :=
  if bool_decide (s = Infinity_text) then infinity
  else match unsigned_decimal s with
       | Some (m, e) => of_decimal m e
       | None => nan
       end.

(** [Number(s)] for a string. *)
Definition StringToNumber (s : jsstring) : float :=
  match trim s with
  | [] => zero
  | (48 :: x :: r) as t =>
      if (x =? 120) || (x =? 88) then from_option of_Z nan (all_digits 16 r)
      else if (x =? 111) || (x =? 79) then from_option of_Z nan (all_digits 8 r)
      else if (x =? 98) || (x =? 66) then from_option of_Z nan (all_digits 2 r)
      else unsigned_number t
  | 43 :: r => unsigned_number r
  | 45 :: r => (- unsigned_number r)%float
  | t => unsigned_number t
  end.

End Number.
Export Number.

(** ** JavaScript values

    The values [JSON.parse] builds, and [undefined]. *)

#[local] Set Warnings "-register-all".

Inductive jsvalue :=
| JUndefined
| JNull
| JBool (b : bool)
| JNum (x : float)
| JStr (s : jsstring)
| JArr (elements : list jsvalue)
| JObj (props : list (jsstring * jsvalue)).

Definition js_truthy (v : jsvalue) : bool :=
  match v with
  | JUndefined | JNull => false
  | JBool b => b
  | JNum x => truthy_number x
  | JStr s => truthy s
  | JArr _ | JObj _ => true
  end.

(** A header or a property that is a string or missing, as a value. *)
Definition of_string (s : option jsstring) : jsvalue :=
  match s with
  | Some s => JStr s
  | None => JUndefined
  end.

(** The own property [k] of an object. *)
Fixpoint own (k : jsstring) (props : list (jsstring * jsvalue)) : option jsvalue :=
  match props with
  | [] => None
  | (k', v) :: rest => if bool_decide (k' = k) then Some v else own k rest
  end.

(** [v.k] for the property names the server reads ([data], [me], [_id],
    [credit], [node], [name], [token] and the like): a TypeError ([None]) on
    [null] and [undefined], the own property of an object, [undefined]
    elsewhere. *)
Definition getprop (k : jsstring) (v : jsvalue) : option jsvalue :=
  match v with
  | JUndefined | JNull => None
  | JObj props => Some (default JUndefined (own k props))
  | _ => Some JUndefined
  end.

(** [v?.k] *)
Definition chain (k : jsstring) (v : jsvalue) : jsvalue :=
  default JUndefined (getprop k v).

(** [v || d] *)
Definition or_else (v d : jsvalue) : jsvalue :=
  if js_truthy v then v else d.

(** [a === b] for two values that were built apart (parsed from different
    texts, or a header and a parsed value): an array or an object is equal
    to itself only. *)
Definition strict_equal (a b : jsvalue) : bool :=
  match a, b with
  | JUndefined, JUndefined | JNull, JNull => true
  | JBool x, JBool y => Bool.eqb x y
  | JNum x, JNum y => (x =? y)%float
  | JStr x, JStr y => bool_decide (x = y)
  | _, _ => false
  end.

(** [obj[k] = v] on an object literal under construction: the property keeps
    its place when it exists and is added at the end when it does not. *)
Fixpoint define (k : jsstring) (v : jsvalue) (props : list (jsstring * jsvalue))
  : list (jsstring * jsvalue) :=
  match props with
  | [] => [(k, v)]
  | (k', v') :: rest =>
      if bool_decide (k' = k) then (k, v) :: rest else (k', v') :: define k v rest
  end.

(** The decimal spelling of an array index. *)
Definition index_key (i : nat) : jsstring :=
  js (NilZero.string_of_uint (Nat.to_uint i)).

(** The own enumerable properties [{ ...v }] copies. *)
Definition spread (v : jsvalue) : list (jsstring * jsvalue) :=
  match v with
  | JObj props => props
  | JArr l => imap (fun i x => (index_key i, x)) l
  | JStr s => imap (fun i c => (index_key i, JStr [c])) s
  | _ => []
  end.

(** Whether [`${v}`] converts [v] to a string without a TypeError: an object
    with an own [toString] property, which is not callable, has no primitive
    value, and an array joins the strings of its elements. *)
Fixpoint printable (v : jsvalue) : bool :=
  match v with
  | JArr l => forallb printable l
  | JObj props => negb (bool_decide (is_Some (own (js "toString") props)))
  | _ => true
  end.

(** [v.length]: the length of a string or an array, which is an integer
    ([inl]); the own property of an object ([inr]); [undefined] on a number
    or a boolean; a TypeError on [null] and [undefined]. *)
Definition get_length (v : jsvalue) : option (nat + jsvalue) :=
  match v with
  | JUndefined | JNull => None
  | JStr s => Some (inl (length s))
  | JArr l => Some (inl (length l))
  | JObj props => Some (inr (default JUndefined (own (js "length") props)))
  | JBool _ | JNum _ => Some (inr JUndefined)
  end.

(** The number that the string of a printable value reads as.  The string of
    a number reads as that number (as [0] for [-0]); the string of an array
    is the strings of its elements joined by commas, where [null] and
    [undefined] give the empty string; no other string of a value is
    numeric. *)
Fixpoint string_number (v : jsvalue) : float :=
  match v with
  | JNum x => if is_zero x then zero else x
  | JStr s => StringToNumber s
  | JArr [] => zero
  | JArr [JUndefined] | JArr [JNull] => zero
  | JArr [e] => string_number e
  | _ => nan
  end.

(** [ToNumber] of a printable value. *)
Definition to_number (v : jsvalue) : float :=
  match v with
  | JUndefined => nan
  | JNull => zero
  | JBool b => if b then one else zero
  | JNum x => x
  | JStr _ | JArr _ | JObj _ => string_number v
  end.

(** [v < y] for a number [y]; a TypeError when [v] has no primitive
    value. *)
Definition less_than (v : jsvalue) (y : float) : option bool :=
  if printable v then Some (to_number v <? y)%float else None.

(** The characters an HTTP header may carry. *)
Definition header_char (c : N) : bool :=
  (c =? 9) || ((32 <=? c) && (c <=? 126)) || ((128 <=? c) && (c <=? 255)).

(** Whether the string of a printable value can be sent in a header: the
    strings of numbers, booleans, [null], [undefined] and objects are plain
    ASCII. *)
Fixpoint header_safe (v : jsvalue) : bool :=
  match v with
  | JStr s => forallb header_char s
  | JArr l => forallb header_safe l
  | _ => true
  end.

(** *** What a JSON text keeps of a value

    [JSON.parse(JSON.stringify(v))]: a number that is not finite is written
    as [null] and [-0] as [0]; in an array [undefined] is written as [null],
    and a property whose value is [undefined] is not written.  The image of
    [undefined] itself, as the value of a property, is [undefined]. *)
Fixpoint JSON_image (v : jsvalue) : jsvalue :=
  match v with
  | JNum x =>
      if is_finite x then (if is_zero x then JNum zero else JNum x) else JNull
  | JArr l =>
      JArr (map (fun e => match e with
                          | JUndefined => JNull
                          | _ => JSON_image e
                          end) l)
  | JObj props =>
      JObj ((fix image ps :=
               match ps with
               | [] => []
               | (k, e) :: rest =>
                   match e with
                   | JUndefined => image rest
                   | _ => (k, JSON_image e) :: image rest
                   end
               end) props)
  | _ => v
  end.

(** The image of an element of an array. *)
Definition JSON_element (e : jsvalue) : jsvalue :=
  match e with
  | JUndefined => JNull
  | _ => JSON_image e
  end.
(** ** [decodeURIComponent] (ECMAScript Decode with an empty reserved set) *)

Module Uri.

Inductive item :=
| Lit (c : N)   (* a code unit copied as it is *)
| Oct (b : N).  (* an octet written as a percent escape *)

Definition hex_value (c : N) : option N :=
  if (48 <=? c) && (c <=? 57) then Some (c - 48)
  else if (65 <=? c) && (c <=? 70) then Some (c - 55)
  else if (97 <=? c) && (c <=? 102) then Some (c - 87)
  else None.

(** A percent sign is followed by two hexadecimal digits, or the decoding
    throws URIError ([None]). *)
Fixpoint items (s : jsstring) : option (list item) :=
  match s with
  | [] => Some []
  | c :: r =>
      if c =? 37 then
        match r with
        | h :: l :: r' =>
            match hex_value h, hex_value l with
            | Some x, Some y => cons (Oct (16 * x + y)) <$> items r'
            | _, _ => None
            end
        | _ => None
        end
      else cons (Lit c) <$> items r
  end.

Definition between (lo hi b : N) : bool := (lo <=? b) && (b <=? hi).

Definition cont (b : N) : bool := between 128 191 b.

(** The code units of a code point (UTF16EncodeCodePoint). *)
Definition utf16 (cp : N) : jsstring :=
  if cp <? 65536 then [cp]
  else [55296 + (cp - 65536) / 1024; 56320 + (cp - 65536) mod 1024].

(** Escaped octets above 0x7F must spell the UTF-8 encoding of one code
    point each (no overlong form, no surrogate, at most U+10FFFF), or the
    decoding throws URIError. *)
Fixpoint utf8 (l : list item) : option jsstring :=
  match l with
  | [] => Some []
  | Lit c :: r => cons c <$> utf8 r
  | Oct b :: r =>
      if b <? 128 then cons b <$> utf8 r
      else if between 194 223 b then
        match r with
        | Oct b1 :: r1 =>
            if cont b1
            then cons ((b - 192) * 64 + (b1 - 128)) <$> utf8 r1
            else None
        | _ => None
        end
      else if between 224 239 b then
        match r with
        | Oct b1 :: Oct b2 :: r2 =>
            if between (if b =? 224 then 160 else 128)
                       (if b =? 237 then 159 else 191) b1 && cont b2
            then cons ((b - 224) * 4096 + (b1 - 128) * 64 + (b2 - 128))
                   <$> utf8 r2
            else None
        | _ => None
        end
      else if between 240 244 b then
        match r with
        | Oct b1 :: Oct b2 :: Oct b3 :: r3 =>
            if between (if b =? 240 then 144 else 128)
                       (if b =? 244 then 143 else 191) b1
               && cont b2 && cont b3
            then app (utf16 ((b - 240) * 262144 + (b1 - 128) * 4096
                             + (b2 - 128) * 64 + (b3 - 128)))
                   <$> utf8 r3
            else None
        | _ => None
        end
      else None
  end.

Definition decodeURIComponent (s : jsstring) : option jsstring :=
  items s ≫= utf8.

End Uri.

(** ** Request headers and cookies *)

Record Request := {
  h_cookie : option jsstring;           (* req.headers.cookie *)
  h_authorization : option jsstring;    (* req.headers['authorization'] *)
  h_admin_password : option jsstring    (* req.headers['x-admin-password'] *)
}.

(** One [forEach] step of [parseCookies]: a pair without [=] is skipped, and
    a value that does not decode throws. *)
Definition parsePair (acc : option (gmap jsstring jsstring)) (pair : jsstring)
  : option (gmap jsstring jsstring) :=
  result ← acc;
  match indexOf 61 pair with
  | None => Some result
  | Some idx =>
      let key := trim (take idx pair) in
      let val := trim (drop (S idx) pair) in
      v ← Uri.decodeURIComponent val;
      Some (<[key := v]> result)
  end.

(** [parseCookies(req)]; [None] is the URIError of [decodeURIComponent]. *)
Definition parseCookies (req : Request) : option (gmap jsstring jsstring) :=
  match h_cookie req with
  | None => Some ∅
  | Some header =>
      if truthy header
      then fold_left parsePair (split 59 header) (Some ∅)
      else Some ∅
  end.


(** ** The configuration directory

    [CONFIG_DIR] holds three JSON documents.  A path of the directory is
    absent, a directory, or a regular file; the text of a regular file is a
    JSON text on which the code that reads the file does not throw, or
    anything else ([Garbage]): a text that [JSON.parse] refuses, among them
    the empty text and every text that was cut short, or one that parses to
    a value the read throws on. *)

Inductive text (D : Type) :=
| Garbage
| Json (d : D).
Arguments Garbage {D}.
Arguments Json {D} d.

Inductive node (D : Type) :=
| Absent
| Directory
| Regular (t : text D).
Arguments Absent {D}.
Arguments Directory {D}.
Arguments Regular {D} t.

(** sessionId -> { password, createdAt, lastAccessedAt }.  The password is
    the value [createSession] was given. *)
Record Session := {
  password : jsvalue;
  createdAt : jsstring;
  lastAccessedAt : jsstring
}.

(** An account as the data model has it, and as a value. *)
Record Account := {
  name : jsstring;
  token : jsstring
}.

Definition account_value (a : Account) : jsvalue :=
  JObj [(js "name", JStr (name a)); (js "token", JStr (token a))].

(** The document of [password.json], by the property the code reads:
    [JSON.parse(data).password], [undefined] in a document without it. *)
Record PasswordDoc := { doc_password : jsvalue }.

Record ConfigDir := {
  sessions_json : node (gmap jsstring Session);
  accounts_json : node (list jsvalue);
  password_json : node PasswordDoc
}.

(** What the file system lets the process do: nothing can be changed
    (read-only mount, permissions), entries can be changed but no data can
    be written (no space left), or everything can. *)
Inductive medium := ReadOnly | Full | Ready.

(** [config_dir = None] is a missing [CONFIG_DIR]. *)
Record Disk := {
  state : medium;
  config_dir : option ConfigDir
}.

Definition writable (d : Disk) : bool :=
  match state d with
  | Ready => true
  | ReadOnly | Full => false
  end.

Definition empty_dir : ConfigDir :=
  {| sessions_json := Absent; accounts_json := Absent; password_json := Absent |}.

(** A path below [CONFIG_DIR], as the way to read and replace its node. *)
Record File (D : Type) := {
  get : ConfigDir -> node D;
  put : node D -> ConfigDir -> ConfigDir
}.
Arguments get {D} f c.
Arguments put {D} f n c.

Definition SESSIONS_FILE : File (gmap jsstring Session) :=
  {| get := sessions_json;
     put := fun n c => {| sessions_json := n; accounts_json := accounts_json c;
                          password_json := password_json c |} |}.

Definition ACCOUNTS_FILE : File (list jsvalue) :=
  {| get := accounts_json;
     put := fun n c => {| sessions_json := sessions_json c; accounts_json := n;
                          password_json := password_json c |} |}.

Definition PASSWORD_FILE : File PasswordDoc :=
  {| get := password_json;
     put := fun n c => {| sessions_json := sessions_json c;
                          accounts_json := accounts_json c;
                          password_json := n |} |}.

(** *** Synchronous [fs] calls

    A call runs on the disk and returns a value or throws ([None]); the disk
    it leaves is returned in both cases. *)

Definition io (A : Type) : Type := Disk -> option A * Disk.

Definition ret {A} (a : A) : io A := fun d => (Some a, d).

Definition throw {A} : io A := fun d => (None, d).

Definition bind {A B} (m : io A) (k : A -> io B) : io B :=
  fun d => match m d with
           | (Some a, d') => k a d'
           | (None, d') => (None, d')
           end.

(** [try { m } catch (e) { h }] *)
Definition try_catch {A} (m : io A) (h : io A) : io A :=
  fun d => match m d with
           | (Some a, d') => (Some a, d')
           | (None, d') => h d'
           end.

Notation "'let!' x ':=' m 'in' k" := (bind m (fun x => k))
  (at level 10, x name, m at level 100, k at level 200).
Notation "'run' m 'then' k" := (bind m (fun _ => k))
  (at level 10, m at level 100, k at level 200).

Definition when (b : bool) (m : io unit) : io unit :=
  if b then m else ret tt.

Section Fs.

Context {D : Type} (f : File D).

Definition node_of (d : Disk) : node D :=
  match config_dir d with
  | Some c => get f c
  | None => Absent
  end.

Definition existsSync : io bool :=
  fun d => (Some (match node_of d with Absent => false | _ => true end), d).

(** [fs.statSync(path).isFile()] *)
Definition isFile : io bool :=
  fun d => match node_of d with
           | Absent => (None, d)
           | Directory => (Some false, d)
           | Regular _ => (Some true, d)
           end.

Definition readFileSync : io (text D) :=
  fun d => match node_of d with
           | Regular t => (Some t, d)
           | _ => (None, d)
           end.

(** [JSON.parse(data)], followed by the read of the document. *)
Definition parse (t : text D) : io D :=
  match t with
  | Json doc => ret doc
  | Garbage => throw
  end.

Definition replace_node (n : node D) (d : Disk) : Disk :=
  {| state := state d;
     config_dir := put f n <$> config_dir d |}.

(** [fs.rmSync(path, { recursive: true })] *)
Definition rmSync : io unit :=
  fun d => match node_of d with
           | Absent => (None, d)
           | _ => match state d with
                  | ReadOnly => (None, d)
                  | Full | Ready => (Some tt, replace_node Absent d)
                  end
           end.

(** [fs.writeFileSync(path, text)] for the JSON text of [doc].  The file is
    opened for writing, which empties it, and the text is written then: on
    a disk without space the call throws and leaves a file that was cut
    short. *)
Definition writeFileSync (doc : D) : io unit :=
  fun d => match config_dir d, node_of d with
           | None, _ => (None, d)
           | Some _, Directory => (None, d)
           | Some _, _ =>
               match state d with
               | ReadOnly => (None, d)
               | Full => (None, replace_node (Regular Garbage) d)
               | Ready => (Some tt, replace_node (Regular (Json doc)) d)
               end
           end.

End Fs.

Definition existsConfigDir : io bool :=
  fun d => (Some (match config_dir d with Some _ => true | None => false end), d).

(** [fs.mkdirSync(CONFIG_DIR, { recursive: true })] *)
Definition mkdirSync : io unit :=
  fun d => match config_dir d with
           | Some _ => (Some tt, d)
           | None => match state d with
                     | ReadOnly => (None, d)
                     | Full | Ready =>
                         (Some tt, {| state := state d; config_dir := Some empty_dir |})
                     end
           end.
(** ** SessionStore *)

(** The process: the session table in memory, [process.env.ADMIN_PASSWORD]
    and the disk. *)
Record World := {
  sessions : gmap jsstring Session;
  env_ADMIN_PASSWORD : option jsstring;
  disk : Disk
}.

Definition with_sessions (s : gmap jsstring Session) (w : World) : World :=
  {| sessions := s; env_ADMIN_PASSWORD := env_ADMIN_PASSWORD w; disk := disk w |}.

Definition with_disk (d : Disk) (w : World) : World :=
  {| sessions := sessions w; env_ADMIN_PASSWORD := env_ADMIN_PASSWORD w; disk := d |}.

(** [Object.assign(target, source)]: every property of the source is set on
    the target. *)
Definition Object_assign {V} (target source : gmap jsstring V) : gmap jsstring V :=
  source ∪ target.

(** [loadSessions()]: a failure to read or parse is caught and logged. *)
Definition loadSessions (w : World) : World :=
  let '(loaded, d) :=
    try_catch
      (let! there := existsSync SESSIONS_FILE in
       if there
       then let! data := readFileSync SESSIONS_FILE in
            let! loaded := parse data in
            ret (Some loaded)
       else ret None)
      (ret None) (disk w) in
  match loaded with
  | Some (Some l) => with_disk d (with_sessions (Object_assign (sessions w) l) w)
  | _ => with_disk d w
  end.

(** The record that is read back from the text [JSON.stringify] writes for
    a record. *)
Definition stored (s : Session) : Session :=
  {| password := JSON_image (password s);
     createdAt := createdAt s;
     lastAccessedAt := lastAccessedAt s |}.

(** [saveSessions()]: a failure to write is caught and logged. *)
Definition saveSessions (table : gmap jsstring Session) : io unit :=
  try_catch (writeFileSync SESSIONS_FILE (stored <$> table)) (ret tt).

(** What a function of the request layer does: it returns a value in a new
    world, or an exception leaves it. *)
Inductive result (A : Type) :=
| Returned (a : A) (w : World)
| Thrown (w : World).
Arguments Returned {A} a w.
Arguments Thrown {A} w.

(** A file-system call made by the process. *)
Definition on_disk {A} (m : io A) (w : World) : result A :=
  match m (disk w) with
  | (Some a, d) => Returned a (with_disk d w)
  | (None, d) => Thrown (with_disk d w)
  end.

Definition and_then {A B} (r : result A) (k : A -> World -> result B) : result B :=
  match r with
  | Returned a w => k a w
  | Thrown w => Thrown w
  end.

(** [createSession(password)], given the 24 bytes of [crypto.randomBytes] and
    the two readings of the clock. *)
Definition createSession (random : list N) (t1 t2 : jsstring) (pw : jsvalue)
    (w : World) : result jsstring :=
  let sid := toHex random in
  let record := {| password := pw; createdAt := t1; lastAccessedAt := t2 |} in
  let w1 := with_sessions (<[sid := record]> (sessions w)) w in
  and_then (on_disk (saveSessions (sessions w1)) w1) (fun _ w2 =>
  Returned sid w2).

Definition touch (now : jsstring) (s : Session) : Session :=
  {| password := password s; createdAt := createdAt s; lastAccessedAt := now |}.

(** [session.lastAccessedAt = new Date().toISOString(); saveSessions()] *)
Definition refresh (now : jsstring) (sid : jsstring) (session : Session)
    (w : World) : result unit :=
  let w1 := with_sessions (<[sid := touch now session]> (sessions w)) w in
  on_disk (saveSessions (sessions w1)) w1.

(** [getSession(req)]; the session it returns is [{ sid, ...session }]. *)
Definition getSession (now : jsstring) (req : Request) (w : World)
  : result (option (jsstring * Session)) :=
  match parseCookies req with
  | None => Thrown w
  | Some cookies =>
      match cookies !! js "sid" with
      | None => Returned None w
      | Some sid =>
          if negb (truthy sid) then Returned None w
          else match sessions w !! sid with
               | None => Returned None w
               | Some session =>
                   and_then (refresh now sid session w) (fun _ w1 =>
                   Returned (Some (sid, touch now session)) w1)
               end
      end
  end.

(** [destroySession(req)] *)
Definition destroySession (req : Request) (w : World) : result bool :=
  match parseCookies req with
  | None => Thrown w
  | Some cookies =>
      match cookies !! js "sid" with
      | None => Returned false w
      | Some sid =>
          if truthy sid && bool_decide (is_Some (sessions w !! sid))
          then let w1 := with_sessions (delete sid (sessions w)) w in
               and_then (on_disk (saveSessions (sessions w1)) w1) (fun _ w2 =>
               Returned true w2)
          else Returned false w
      end
  end.


(** ** The administrator password *)

(** The file branch of [loadAdminPassword]. *)
Definition readPasswordFile : io jsvalue :=
  try_catch
    (let! there := existsSync PASSWORD_FILE in
     if there
     then let! file := isFile PASSWORD_FILE in
          if negb file
          then run rmSync PASSWORD_FILE then ret JNull
          else let! data := readFileSync PASSWORD_FILE in
               let! doc := parse data in
               ret (doc_password doc)
     else ret JNull)
    (ret JNull).

(** [loadAdminPassword()]: the environment first, the file second. *)
Definition loadAdminPassword (env : option jsstring) : io jsvalue :=
  if truthy_opt env then ret (of_string env) else readPasswordFile.

(** [isPasswordSavedToFile()] *)
Definition isPasswordSavedToFile : io bool :=
  try_catch
    (let! there := existsSync PASSWORD_FILE in
     if there
     then let! file := isFile PASSWORD_FILE in
          if negb file then ret false
          else let! data := readFileSync PASSWORD_FILE in
               let! doc := parse data in
               ret (js_truthy (doc_password doc))
     else ret false)
    (ret false).

(** The body shared by [saveAdminPassword] and [saveServerAccounts]. *)
Definition saveDocument {D} (f : File D) (doc : D) : io bool :=
  try_catch
    (let! dir := existsConfigDir in
     run when (negb dir) mkdirSync then
     let! there := existsSync f in
     run (if there
          then let! file := isFile f in when (negb file) (rmSync f)
          else ret tt) then
     run writeFileSync f doc then
     ret true)
    (ret false).

(** [saveAdminPassword(password)]: the text is
    [JSON.stringify({ password }, null, 2)]. *)
Definition saveAdminPassword (pw : jsvalue) : io bool :=
  saveDocument PASSWORD_FILE {| doc_password := JSON_image pw |}.

(** ** The stored accounts *)

(** [loadServerAccounts()] *)
Definition loadServerAccounts : io (list jsvalue) :=
  try_catch
    (let! there := existsSync ACCOUNTS_FILE in
     if there
     then let! file := isFile ACCOUNTS_FILE in
          if negb file
          then run rmSync ACCOUNTS_FILE then ret []
          else let! data := readFileSync ACCOUNTS_FILE in
               parse data
     else ret [])
    (ret []).

(** [saveServerAccounts(accounts)] for an array: the text is
    [JSON.stringify(accounts, null, 2)]. *)
Definition saveServerAccounts (accounts : list jsvalue) : io bool :=
  saveDocument ACCOUNTS_FILE (JSON_element <$> accounts).
(** ** AuthGate *)

(** How [requireAuth] ends: it calls [next()], it answers
    [res.status(401).json({ success: false, error: ... })], or an exception
    leaves the middleware and Express answers with its error page. *)
Inductive gate :=
| Next (w : World)
| Unauthenticated (w : World)
| Uncaught (w : World).

(** The session id of an [Authorization: Bearer <id>] header. *)
Definition bearer (req : Request) : option jsstring :=
  match h_authorization req with
  | Some authHeader =>
      if truthy authHeader && startsWith (js "Bearer ") authHeader
      then Some (substring 7 authHeader)
      else None
  | None => None
  end.

(** The last part of [requireAuth]: the [x-admin-password] header against
    the saved password. *)
Definition legacy_header (req : Request) (w : World) : gate :=
  let pw := of_string (h_admin_password req) in
  match on_disk (loadAdminPassword (env_ADMIN_PASSWORD w)) w with
  | Thrown w1 => Uncaught w1
  | Returned savedPassword w1 =>
      if negb (js_truthy savedPassword) then Next w1
      else if strict_equal pw savedPassword then Next w1
      else Unauthenticated w1
  end.

(** [requireAuth(req, res, next)] *)
Definition requireAuth (now : jsstring) (req : Request) (w : World) : gate :=
  match getSession now req w with
  | Thrown w1 => Uncaught w1
  | Returned (Some _) w1 => Next w1
  | Returned None w1 =>
      match bearer req with
      | Some sessionId =>
          match sessions w1 !! sessionId with
          | Some session =>
              match refresh now sessionId session w1 with
              | Returned _ w2 => Next w2
              | Thrown w2 => Uncaught w2
              end
          | None => legacy_header req w1
          end
      | None => legacy_header req w1
      end
  end.


(** ** Password setup *)

Inductive set_password_reply :=
| PasswordSaved        (* res.json({ success: true }) *)
| SetByEnvironment     (* 400: the password comes from the environment *)
| AlreadySaved         (* 400: a password is saved in the file *)
| TooShort             (* 400: at least 6 characters *)
| SaveFailed.          (* 500: the file could not be written *)

Definition set_password_status (r : set_password_reply) : N :=
  match r with
  | PasswordSaved => 200
  | SetByEnvironment | AlreadySaved | TooShort => 400
  | SaveFailed => 500
  end.

(** [!password || password.length < 6].  The length of a string or an array
    is an integer, and its comparison with 6 is the comparison of integers;
    the [length] of an object is converted to a number, which is a TypeError
    ([None]) when it has no primitive value. *)
Definition too_short (pw : jsvalue) : option bool :=
  if negb (js_truthy pw) then Some true
  else match get_length pw with
       | None => None
       | Some (inl n) => Some (n <? 6)%nat
       | Some (inr len) => less_than len 6
       end.

(** [app.post('/api/set-password')] with [password] the property of the
    request body, [undefined] when the body has none.  No reply ([None]) is
    an exception that leaves the handler. *)
Definition set_password (pw : jsvalue) (w : World)
  : option set_password_reply * World :=
  if truthy_opt (env_ADMIN_PASSWORD w) then (Some SetByEnvironment, w)
  else
    match isPasswordSavedToFile (disk w) with
    | (None, d) => (None, with_disk d w)
    | (Some true, d) => (Some AlreadySaved, with_disk d w)
    | (Some false, d) =>
        match too_short pw with
        | None => (None, with_disk d w)
        | Some true => (Some TooShort, with_disk d w)
        | Some false =>
            match saveAdminPassword pw d with
            | (None, d') => (None, with_disk d' w)
            | (Some true, d') => (Some PasswordSaved, with_disk d' w)
            | (Some false, d') => (Some SaveFailed, with_disk d' w)
            end
        end
    end.

(** ** Session endpoints *)

(** The request a browser sends back with the cookie it was given, and the
    request of a client that keeps the id and sends it as a bearer token. *)
Definition cookie_request (sid : jsstring) : Request :=
  {| h_cookie := Some (js "sid=" ++ sid);
     h_authorization := None;
     h_admin_password := None |}.

Definition bearer_request (sid : jsstring) : Request :=
  {| h_cookie := None;
     h_authorization := Some (js "Bearer " ++ sid);
     h_admin_password := None |}.

Inductive login_reply :=
| LoggedIn (sessionId : jsstring)  (* the sid cookie is set; { success: true, sessionId } *)
| SetPasswordFirst                 (* 400 *)
| WrongPassword.                   (* 401 *)

(** [app.post('/api/login')] with [password] the property of the body. *)
Definition login (random : list N) (t1 t2 : jsstring) (pw : jsvalue)
    (w : World) : result login_reply :=
  and_then (on_disk (loadAdminPassword (env_ADMIN_PASSWORD w)) w)
    (fun savedPassword w1 =>
  if negb (js_truthy savedPassword) then Returned SetPasswordFirst w1
  else if negb (strict_equal pw savedPassword) then Returned WrongPassword w1
  else and_then (createSession random t1 t2 pw w1) (fun sid w2 =>
       Returned (LoggedIn sid) w2)).

(** [app.post('/api/logout')]: the cookie is cleared and the answer is
    [{ success: true }] whether a session was destroyed or not. *)
Definition logout (req : Request) (w : World) : result unit :=
  and_then (destroySession req w) (fun _ w1 => Returned tt w1).

(** [app.get('/api/session')]: [{ authenticated: !!session }] *)
Definition session_check (now : jsstring) (req : Request) (w : World)
  : result bool :=
  and_then (getSession now req w) (fun session w1 =>
  Returned (bool_decide (is_Some session)) w1).


Inductive verify_reply :=
| Verified          (* { success: true } *)
| NothingToVerify   (* 400 *)
| Mismatch.         (* 401 *)

(** [app.post('/api/verify-password')] *)
Definition verify_password (pw : jsvalue) (w : World)
  : result verify_reply :=
  and_then (on_disk (loadAdminPassword (env_ADMIN_PASSWORD w)) w)
    (fun savedPassword w1 =>
  if negb (js_truthy savedPassword) then Returned NothingToVerify w1
  else if strict_equal pw savedPassword then Returned Verified w1
  else Returned Mismatch w1).

(** ** UsageAggregator *)

(** One entry of [usages.data]: [{ id, usageOfEntity }], the per-day values
    of a project. *)
Record UsageItem := {
  project_id : jsstring;
  usageOfEntity : list float
}.

(** What [fetchUsageData] resolves with.  The snapshot the handlers start
    from has no [projectCosts] property; nothing reads it there. *)
Record UsageData := {
  projectCosts : gmap jsstring float;
  totalUsage : float;
  freeQuotaRemaining : float;
  freeQuotaLimit : float
}.

(** [project.usageOfEntity.reduce((a, b) => a + b, 0)] *)
Definition projectTotal (project : UsageItem) : float :=
  fold_left PrimFloat.add (usageOfEntity project) 0%float.

(** [projectTotal > 0 ? Math.ceil(projectTotal * 100) / 100 : 0] *)
Definition displayCost (total : float) : float :=
  if (0 <? total)%float then (Math_ceil (total * 100) / 100)%float else 0%float.

(** [costs[k] = v] on a plain object: [__proto__] names the prototype, and
    setting it to a number leaves the object as it is. *)
Definition set_cost (k : jsstring) (v : float) (costs : gmap jsstring float)
  : gmap jsstring float :=
  if bool_decide (k = js "__proto__") then costs else <[k := v]> costs.

(** The body of [usages.forEach]. *)
Definition accumulate (acc : gmap jsstring float * float) (project : UsageItem)
  : gmap jsstring float * float :=
  let total := projectTotal project in
  (set_cost (project_id project) (displayCost total) (fst acc),
   (snd acc + total)%float).

Definition usage_snapshot (usages : list UsageItem) : UsageData :=
  let acc := fold_left accumulate usages (∅, 0%float) in
  {| projectCosts := fst acc;
     totalUsage := snd acc;
     freeQuotaRemaining := (5 - snd acc)%float;
     freeQuotaLimit := 5%float |}.

(** [{ totalUsage: 0, freeQuotaRemaining: 5, freeQuotaLimit: 5 }] *)
Definition initial_usage : UsageData :=
  {| projectCosts := ∅; totalUsage := 0%float;
     freeQuotaRemaining := 5%float; freeQuotaLimit := 5%float |}.

(** ** UpstreamClient *)

Inductive Error :=
| RequestTimeout              (* new Error('Request timeout') *)
| InvalidJSONResponse         (* new Error('Invalid JSON response') *)
| Transport (message : jsstring)   (* the 'error' event of the request *)
| TypeError.                  (* thrown by the engine or by [https.request] *)

Inductive promise (A : Type) :=
| Fulfilled (a : A)
| Rejected (e : Error).
Arguments Fulfilled {A} a.
Arguments Rejected {A} e.

(** How one HTTPS request to the platform ends. *)
Inductive NetReply (B : Type) :=
| NetError (message : jsstring)
| NetTimeout
| NetBody (body : B).
Arguments NetError {B} message.
Arguments NetTimeout {B}.
Arguments NetBody {B} body.

(** The header [`Bearer ${token}`] can be built and sent: the token has a
    string, and [https.request] accepts its characters.  Otherwise the
    function of the promise throws before any request is made. *)
Definition sendable (token : jsvalue) : bool :=
  printable token && header_safe token.

(** [queryZeabur(token, query)]; the body is the value [JSON.parse] builds,
    or [None] when it is not JSON. *)
Definition queryZeabur (token : jsvalue) (r : NetReply (option jsvalue))
  : promise jsvalue :=
  if negb (sendable token) then Rejected TypeError
  else match r with
       | NetError m => Rejected (Transport m)
       | NetTimeout => Rejected RequestTimeout
       | NetBody None => Rejected InvalidJSONResponse
       | NetBody (Some v) => Fulfilled v
       end.

(** The body of the usage report, as the code of [fetchUsageData] reads it:
    it is not a report (not JSON, or of a shape the [try] block throws on),
    it has no [data.usages.data], or it lists the projects. *)
Inductive UsageBody :=
| NotAReport
| NoUsages
| Usages (l : list UsageItem).

(** [fetchUsageData(token, userID, projects)] *)
Definition fetchUsageData (token : jsvalue) (r : NetReply UsageBody)
  : promise UsageData :=
  if negb (sendable token) then Rejected TypeError
  else match r with
       | NetError m => Rejected (Transport m)
       | NetTimeout => Rejected RequestTimeout
       | NetBody NotAReport => Rejected InvalidJSONResponse
       | NetBody NoUsages => Fulfilled (usage_snapshot [])
       | NetBody (Usages l) => Fulfilled (usage_snapshot l)
       end.

(** *** [Promise.all]

    The promises settle in some order; the first one to reject rejects the
    whole, and the values of the others are dropped.  When none rejects the
    values come in the order of the input. *)

Fixpoint in_input_order {A} (ps : list (promise A)) : list A + Error :=
  match ps with
  | [] => inl []
  | Fulfilled a :: rest =>
      match in_input_order rest with
      | inl vs => inl (a :: vs)
      | inr e => inr e
      end
  | Rejected e :: _ => inr e
  end.

Fixpoint first_rejection {A} (order : list nat) (ps : list (promise A))
  : option Error :=
  match order with
  | [] => None
  | i :: rest =>
      match ps !! i with
      | Some (Rejected e) => Some e
      | _ => first_rejection rest ps
      end
  end.

Definition Promise_all {A} (order : list nat) (ps : list (promise A))
  : promise (list A) :=
  match in_input_order ps with
  | inl vs => Fulfilled vs
  | inr e => Rejected (default e (first_rejection order ps))
  end.

(** ** One account *)

(** What the platform answers to the requests made for one account, and the
    order in which the four requests of [fetchAccountData] settle. *)
Record Upstream := {
  user_reply : NetReply (option jsvalue);
  projects_reply : NetReply (option jsvalue);
  aihub_reply : NetReply (option jsvalue);
  costs_reply : NetReply (option jsvalue);
  settled : list nat;
  usage_reply : NetReply UsageBody
}.

Record AccountData := {
  user : jsvalue;
  projects : list jsvalue;
  aihub : jsvalue;
  serviceCosts : jsvalue
}.

(** [edges?.map(e => e.node) || []]: calling [map] on a value that has none
    is a TypeError, and so is [e.node] on [null]. *)
Definition nodes (edges : jsvalue) : option (list jsvalue) :=
  match edges with
  | JUndefined | JNull => Some []
  | JArr es => mapM (getprop (js "node")) es
  | _ => None
  end.

(** [fetchAccountData(token)] *)
Definition fetchAccountData (token : jsvalue) (up : Upstream)
  : promise AccountData :=
  match Promise_all (settled up)
          [queryZeabur token (user_reply up); queryZeabur token (projects_reply up);
           queryZeabur token (aihub_reply up); queryZeabur token (costs_reply up)] with
  | Rejected e => Rejected e
  | Fulfilled vs =>
      let userData := default JUndefined (vs !! 0%nat) in
      let projectsData := default JUndefined (vs !! 1%nat) in
      let aihubData := default JUndefined (vs !! 2%nat) in
      let serviceCostsData := default JUndefined (vs !! 3%nat) in
      let user := or_else (chain (js "me") (chain (js "data") userData)) (JObj []) in
      match nodes (chain (js "edges") (chain (js "projects")
                     (chain (js "data") projectsData))) with
      | None => Rejected TypeError
      | Some projects =>
          Fulfilled
            {| user := user;
               projects := projects;
               aihub := or_else (chain (js "aihubTenant") (chain (js "data") aihubData))
                          (JObj []);
               serviceCosts :=
                 or_else (chain (js "serviceCostsThisMonth")
                            (chain (js "me") (chain (js "data") serviceCostsData)))
                   (JNum 0) |}
      end
  end.

(** [{ name: account.name, success: true, data, aihub }] and
    [{ name: account.name, success: false, error: error.message }] *)
Inductive AccountResult :=
| Success (name : jsvalue) (data : list (jsstring * jsvalue)) (aihub : jsvalue)
| Failure (name : jsvalue) (error : Error).

(** The usage snapshot of an account: the fifth query is made when the user
    has an [_id], and its failure is caught and logged. *)
Definition usage_of (token : jsvalue) (d : AccountData) (up : Upstream)
  : UsageData :=
  if js_truthy (chain (js "_id") (user d))
  then match fetchUsageData token (usage_reply up) with
       | Fulfilled u => u
       | Rejected _ => initial_usage
       end
  else initial_usage.

(** [{ ...user, credit, totalUsage, totalCost, freeQuotaLimit }] *)
Definition account_data (user : jsvalue) (usageData : UsageData)
  : list (jsstring * jsvalue) :=
  let creditInCents := Math_round (freeQuotaRemaining usageData * 100)%float in
  define (js "freeQuotaLimit") (JNum (freeQuotaLimit usageData))
    (define (js "totalCost") (JNum (totalUsage usageData))
       (define (js "totalUsage") (JNum (totalUsage usageData))
          (define (js "credit") (JNum creditInCents) (spread user)))).

(** The [try] block of the function mapped over the accounts.  Its first
    line formats [account.name] for the log. *)
Definition account_pipeline (account : jsvalue) (up : Upstream)
  : promise AccountResult :=
  match getprop (js "name") account with
  | None => Rejected TypeError
  | Some name =>
      if negb (printable name) then Rejected TypeError
      else
        let token := chain (js "token") account in
        match fetchAccountData token up with
        | Rejected e => Rejected e
        | Fulfilled d =>
            (* the log line formats user.credit and serviceCosts *)
            if printable (chain (js "credit") (user d)) && printable (serviceCosts d)
            then Fulfilled (Success name
                              (account_data (user d) (usage_of token d up)) (aihub d))
            else Rejected TypeError
        end
  end.

(** The function mapped over the accounts: its [catch] formats
    [account.name] for the log and turns the error into a failure record. *)
Definition account_task (account : jsvalue) (up : Upstream)
  : promise AccountResult :=
  match account_pipeline account up with
  | Fulfilled r => Fulfilled r
  | Rejected e =>
      match getprop (js "name") account with
      | None => Rejected TypeError
      | Some name =>
          if printable name then Fulfilled (Failure name e)
          else Rejected TypeError
      end
  end.

(** ** The batch *)

Inductive temp_accounts_reply :=
| Results (results : list AccountResult)   (* res.json(results) *)
| InvalidList                              (* 400 *)
| ServerError (e : Error).                 (* 500 *)

(** [app.post('/api/temp-accounts')] behind the gate: [accounts] is the
    property of the request body; [upstream i] answers the requests of the
    account at index [i], and [order] is the order in which the accounts
    finish. *)
Definition temp_accounts (order : list nat) (upstream : nat -> Upstream)
    (accounts : jsvalue) : temp_accounts_reply :=
  match accounts with
  | JArr l =>
      match Promise_all order (imap (fun i a => account_task a (upstream i)) l) with
      | Fulfilled results => Results results
      | Rejected e => ServerError e
      end
  | _ => InvalidList
  end.

(** ** Account validation *)

Inductive validate_reply :=
| AccountValid (userData : jsvalue)   (* { success: true, userData, ... } *)
| FieldsMissing                       (* 400 *)
| TokenInvalid                        (* 400 *)
| ValidationFailed (e : Error).       (* 400 *)

(** [app.post('/api/validate-account')] behind the gate. *)
Definition validate_account (accountName apiToken : jsvalue)
    (up : Upstream) : validate_reply :=
  if negb (js_truthy accountName) || negb (js_truthy apiToken)
  then FieldsMissing
  else match fetchAccountData apiToken up with
       | Rejected e => ValidationFailed e
       | Fulfilled d =>
           if js_truthy (chain (js "_id") (user d)) then AccountValid (user d)
           else TokenInvalid
       end.

(** ** AccountCatalog *)

(** One item of [ACCOUNTS]: [const [name, token] = item.split(':')] and the
    two [trim()]s; without a colon [token] is [undefined] and [token.trim()]
    is a TypeError. *)
Definition env_item (item : jsstring) : option Account :=
  match split 58 item with
  | name :: token :: _ => Some {| name := trim name; token := trim token |}
  | _ => None
  end.

(** [getEnvAccounts()] for the value of [process.env.ACCOUNTS]; an error in
    the [try] block gives the empty list. *)
Definition getEnvAccounts (accountsEnv : option jsstring) : list Account :=
  match accountsEnv with
  | None => []
  | Some e =>
      if negb (truthy e) then []
      else match mapM env_item (split 44 e) with
           | Some l => List.filter (fun acc => truthy (name acc) && truthy (token acc)) l
           | None => []
           end
  end.

(** [app.get('/api/server-accounts')]: the accounts of the environment, then
    the stored ones. *)
Definition server_accounts_get (accountsEnv : option jsstring)
  : io (list jsvalue) :=
  let! serverAccounts := loadServerAccounts in
  ret ((account_value <$> getEnvAccounts accountsEnv) ++ serverAccounts).

Inductive catalog_reply :=
| Done          (* { success: true, message } *)
| InvalidBody   (* 400 *)
| NotFound      (* 404 *)
| WriteFailed.  (* 500 *)

(** [app.post('/api/server-accounts')] with [accounts] the property of the
    request body. *)
Definition server_accounts_post (accounts : jsvalue) : io catalog_reply :=
  match accounts with
  | JArr l =>
      let! saved := saveServerAccounts l in
      ret (if saved then Done else WriteFailed)
  | _ => ret InvalidBody
  end.

(** [app.delete('/api/server-accounts/:index')] with the text of the
    parameter.  After the save the log line formats [removed[0].name]; an
    exception there leaves the handler, and no answer is sent. *)
Definition server_accounts_delete (param : jsstring) : io catalog_reply :=
  let index := parseInt param in
  let! accounts := loadServerAccounts in
  match index with
  | Some i =>
      if (0 <=? i)%Z && (i <? Z.of_nat (length accounts))%Z
      then (* accounts.splice(index, 1) *)
           let removed := accounts !! Z.to_nat i in
           let! saved := saveServerAccounts (delete (Z.to_nat i) accounts) in
           if saved
           then match removed ≫= getprop (js "name") with
                | Some name => if printable name then ret Done else throw
                | None => throw
                end
           else ret WriteFailed
      else ret NotFound
  | None => ret NotFound
  end.

(** ** Vocabulary of the specification *)

(** A password is saved in the file: [password.json] is a document with a
    truthy [password]. *)
Definition file_holds_password (d : Disk) : Prop :=
  exists v, node_of PASSWORD_FILE d = Regular (Json {| doc_password := v |})
            /\ js_truthy v = true.

(** [v] is the administrator password the process finds: a non-empty value
    of [ADMIN_PASSWORD], or, when the environment has none, the truthy
    [password] of [password.json]. *)
Definition saved_password (w : World) (v : jsvalue) : Prop :=
  js_truthy v = true
  /\ ((exists p, env_ADMIN_PASSWORD w = Some p /\ v = JStr p)
      \/ (truthy_opt (env_ADMIN_PASSWORD w) = false
          /\ node_of PASSWORD_FILE (disk w)
             = Regular (Json {| doc_password := v |}))).

(** [p] is the configured administrator password: a non-empty value of
    [ADMIN_PASSWORD], or, when the environment has none, the non-empty
    password of [password.json]. *)
Definition configured (w : World) (p : jsstring) : Prop :=
  p <> []
  /\ (env_ADMIN_PASSWORD w = Some p
      \/ (truthy_opt (env_ADMIN_PASSWORD w) = false
          /\ node_of PASSWORD_FILE (disk w)
             = Regular (Json {| doc_password := JStr p |}))).

(** The four channels of the gate, in the words of the specification. *)
Definition cookie_session (req : Request) (w : World) : Prop :=
  exists cookies sid, parseCookies req = Some cookies
    /\ cookies !! js "sid" = Some sid /\ is_Some (sessions w !! sid).

Definition bearer_session (req : Request) (w : World) : Prop :=
  exists id, bearer req = Some id /\ is_Some (sessions w !! id).

Definition header_password (req : Request) (w : World) : Prop :=
  exists p, h_admin_password req = Some p /\ configured w p.

(** No administrator password is configured, in the environment or in the
    file. *)
Definition no_password (w : World) : Prop := forall v, ~ saved_password w v.

Definition authenticates (req : Request) (w : World) : Prop :=
  cookie_session req w \/ bearer_session req w
  \/ header_password req w \/ no_password w.

(** The pipeline of an account reaches the usage query: the log line that
    formats [user.credit] and [serviceCosts] did not throw, and the user has
    an [_id]. *)
Definition reaches_usage_query (d : AccountData) : bool :=
  printable (chain (js "credit") (user d)) && printable (serviceCosts d)
  && js_truthy (chain (js "_id") (user d)).

(** An element of a batch whose [name] can be read and written to the log:
    it is not [null], and its [name] has a string. *)
Definition nameable (account : jsvalue) : Prop :=
  exists name, getprop (js "name") account = Some name /\ printable name = true.

(** The record an account ends with when the [catch] of its function does
    not throw. *)
Definition account_outcome (account : jsvalue) (up : Upstream) : AccountResult :=
  match account_pipeline account up with
  | Fulfilled r => r
  | Rejected e => Failure (chain (js "name") account) e
  end.

(** [n] is the integer nearest to the number [x], the greater one on a tie. *)
Definition nearest_integer (x : float) (n : Z) : Prop :=
  exists q, exact x = Some q
    /\ (inject_Z n - (1 # 2) <= q)%Q /\ (q < inject_Z n + (1 # 2))%Q.

(** The sum of a list of numbers, added from left to right. *)
Definition float_sum (l : list float) : float :=
  fold_left PrimFloat.add l 0%float.


(** A value that a JSON text keeps as it is. *)
Definition JSON_stable (v : jsvalue) : Prop := JSON_image v = v.

(** [edges] is missing, [null], or an array without [null]. *)
Definition listable (edges : jsvalue) : Prop :=
  edges = JUndefined \/ edges = JNull
  \/ exists es, edges = JArr es
       /\ Forall (fun e => e <> JNull /\ e <> JUndefined) es.

(** ** Vocabulary of the further properties *)

(** A disk on which [sessions.json] can be written. *)
Definition persistable (d : Disk) : Prop :=
  writable d = true
  /\ exists c, config_dir d = Some c /\ sessions_json c <> Directory.

(** The world a call of the gate leaves. *)
Definition gate_world (g : gate) : World :=
  match g with
  | Next w | Unauthenticated w | Uncaught w => w
  end.

(** The process starts: the table is empty ([Object.create(null)]) and
    [loadSessions()] is called once. *)
Definition start (env : option jsstring) (d : Disk) : World :=
  loadSessions {| sessions := ∅; env_ADMIN_PASSWORD := env; disk := d |}.

(** A process that starts on the disk another one left. *)
Definition restart (w : World) : World := loadSessions (with_sessions ∅ w).

(** The digits [buf.toString('hex')] writes. *)
Definition lower_hex (c : N) : bool :=
  ((48 <=? c) && (c <=? 57)) || ((97 <=? c) && (c <=? 102)).

(** The documented format of [ACCOUNTS]: [name1:token1,name2:token2]. *)
Fixpoint env_format (l : list Account) : jsstring :=
  match l with
  | [] => []
  | [a] => name a ++ 58 :: token a
  | a :: rest => name a ++ 58 :: token a ++ 44 :: env_format rest
  end.

(** A name or a token that the format can carry: not empty, without comma or
    colon, and without white space at its ends. *)
Definition plain_field (s : jsstring) : Prop :=
  s <> [] /\ (44 ∉ s) /\ (58 ∉ s) /\ trim s = s.

(** The usage reply of an upstream replaced. *)
Definition with_usage (r : NetReply UsageBody) (up : Upstream) : Upstream :=
  {| user_reply := user_reply up;
     projects_reply := projects_reply up;
     aihub_reply := aihub_reply up;
     costs_reply := costs_reply up;
     settled := settled up;
     usage_reply := r |}.

(** ** Inputs of the runs *)

Definition ready (c : option ConfigDir) : Disk :=
  {| state := Ready; config_dir := c |}.

(** No configuration directory: every write of [sessions.json] fails. *)
Definition stranded : World :=
  {| sessions := ∅;
     env_ADMIN_PASSWORD := Some (js "secret1");
     disk := ready None |}.

(** A disk without space left. *)
Definition crowded : World :=
  {| sessions := ∅;
     env_ADMIN_PASSWORD := Some (js "secret1");
     disk := {| state := Full; config_dir := Some empty_dir |} |}.

(** The disk of a process that was stopped with one session, and the record
    of that session. *)
Definition new_record : Session :=
  {| password := JStr (js "secret1"); createdAt := js "t1"; lastAccessedAt := js "t1" |}.

Definition left_behind : Disk :=
  ready (Some {| sessions_json := Regular (Json {[ js "ab" := new_record ]});
                 accounts_json := Absent;
                 password_json := Absent |}).

(** A process with one session and a password from the environment. *)
Definition sid0 : jsstring := toHex (repeat 171 24).

Definition logged_in : World :=
  {| sessions := {[ sid0 := {| password := JStr (js "secret1"); createdAt := js "t0";
                               lastAccessedAt := js "t0" |} ]};
     env_ADMIN_PASSWORD := Some (js "secret1");
     disk := ready (Some empty_dir) |}.

(** [Cookie: sid=%] with a valid bearer id and the right password. *)
Definition malformed : Request :=
  {| h_cookie := Some (js "sid=%");
     h_authorization := Some (js "Bearer " ++ sid0);
     h_admin_password := Some (js "secret1") |}.

(** The same request without the cookie. *)
Definition well_formed : Request :=
  {| h_cookie := None;
     h_authorization := Some (js "Bearer " ++ sid0);
     h_admin_password := Some (js "secret1") |}.

(** [Cookie: sid=%] and nothing else. *)
Definition malformed_only : Request :=
  {| h_cookie := Some (js "sid=%");
     h_authorization := None;
     h_admin_password := None |}.

Definition account_a : Account := {| name := js "A"; token := js "tokenA" |}.

Definition account_b : Account := {| name := js "B"; token := js "tokenB" |}.

(** [{ "data": { "me": { "_id": "u1", "username": "ann", "credit": 42 } } }] *)
Definition me_body : jsvalue :=
  JObj [(js "data",
         JObj [(js "me",
                JObj [(js "_id", JStr (js "u1"));
                      (js "username", JStr (js "ann"));
                      (js "credit", JNum 42)])])].

(** [{ "data": {} }] *)
Definition empty_body : jsvalue := JObj [(js "data", JObj [])].

(** A platform that answers the four queries, with a given end of the usage
    query. *)
Definition answering (usage : NetReply UsageBody) : Upstream :=
  {| user_reply := NetBody (Some me_body);
     projects_reply := NetBody (Some empty_body);
     aihub_reply := NetBody (Some empty_body);
     costs_reply := NetBody (Some empty_body);
     settled := [1; 0; 3; 2]%nat;
     usage_reply := usage |}.

(** A platform whose identity query times out. *)
Definition silent : Upstream :=
  {| user_reply := NetTimeout;
     projects_reply := NetBody (Some empty_body);
     aihub_reply := NetBody None;
     costs_reply := NetBody (Some empty_body);
     settled := [0; 1; 2; 3]%nat;
     usage_reply := NetTimeout |}.

(** Projects with the raw costs 0.071 and 0.034. *)
Definition project_a : UsageItem :=
  {| project_id := js "a"; usageOfEntity := [0.071%float] |}.

Definition project_b : UsageItem :=
  {| project_id := js "b"; usageOfEntity := [0.034%float] |}.

(** A project that cost 0.07 on one day, and one that cost 0.1, 0.2 and 0.05
    on three days. *)
Definition project_c : UsageItem :=
  {| project_id := js "c"; usageOfEntity := [0.07%float] |}.

Definition project_d : UsageItem :=
  {| project_id := js "d"; usageOfEntity := [0.1%float; 0.2%float; 0.05%float] |}.

Definition writable_disk : Disk := ready None.

(** A process on its first run: no session, no password, no configuration
    directory yet. *)
Definition first_run : World :=
  {| sessions := ∅;
     env_ADMIN_PASSWORD := None;
     disk := ready None |}.

(** The same with [ADMIN_PASSWORD] set to the empty string. *)
Definition blank_env : World :=
  {| sessions := ∅;
     env_ADMIN_PASSWORD := Some [];
     disk := ready None |}.

(** [{ "errors": [...], "data": null }], the answer to a token the platform
    does not accept. *)
Definition refused_body : jsvalue :=
  JObj [(js "errors", JArr [JObj [(js "message", JStr (js "Unauthorized"))]]);
        (js "data", JNull)].

Definition refusing : Upstream :=
  {| user_reply := NetBody (Some refused_body);
     projects_reply := NetBody (Some refused_body);
     aihub_reply := NetBody (Some refused_body);
     costs_reply := NetBody (Some refused_body);
     settled := [0; 1; 2; 3]%nat;
     usage_reply := NetBody NotAReport |}.

(** A disk with two stored accounts. *)
Definition stocked : Disk :=
  ready (Some {| sessions_json := Absent;
                 accounts_json := Regular (Json [account_value account_a;
                                                 account_value account_b]);
                 password_json := Absent |}).

(** A disk whose stored list has [null] at index 1. *)
Definition holed : Disk :=
  ready (Some {| sessions_json := Absent;
                 accounts_json := Regular (Json [account_value account_a; JNull]);
                 password_json := Absent |}).

(** * Properties *)

Section Usage.

Local Open Scope float_scope.


Lemma costs_fold_other (k : jsstring) (usages : list UsageItem)
    (acc : gmap jsstring float * float) :
  (forall q, q ∈ usages -> project_id q <> k) ->
  fst (fold_left accumulate usages acc) !! k = fst acc !! k.
Proof.
  revert acc. induction usages as [|p l IH]; intros acc Hk; simpl; [done|].
  rewrite IH.
  - simpl. unfold set_cost. case_bool_decide; [done|].
    apply lookup_insert_ne, Hk. left.
  - intros q Hq. apply Hk. by right.
Qed.

(** The cost stored for the last entry of a report with a given id. *)
Lemma stored_cost (pre post : list UsageItem) (p : UsageItem) :
  (forall q, q ∈ post -> project_id q <> project_id p) ->
  project_id p <> js "__proto__" ->
  projectCosts (usage_snapshot (pre ++ p :: post)) !! project_id p
  = Some (displayCost (projectTotal p)).
Proof.
  intros Hlast Hproto.
  unfold usage_snapshot. simpl. rewrite fold_left_app. simpl.
  rewrite costs_fold_other by exact Hlast.
  simpl. unfold set_cost. rewrite bool_decide_eq_false_2 by exact Hproto.
  apply lookup_insert_eq.
Qed.

(** C2 on the inputs where the code misses it.  The examples of the claim
    hold: a raw sum of 0.071 is shown as 0.08, 0 as 0 and -0.01 as 0.  But a
    project with one day of 0.07, a whole number of cents, is shown as 0.08:
    the product of 0.07 and 100 is 7.0000000000000009, whose ceiling is 8.
    And a project with the days 0.1, 0.2 and 0.05 has the raw sum
    0.35000000000000003 and is shown as 0.35, which is below the raw sum:
    the product with 100 is rounded to 35. *)
Theorem display_cost_misses_cents :
  displayCost 0.071 = 0.08
  /\ displayCost 0 = 0
  /\ displayCost (-0.01) = 0
  /\ (projectTotal project_c = StringToNumber (js "0.07")
      /\ projectTotal project_c * 100 = 7.0000000000000009
      /\ projectCosts (usage_snapshot [project_c]) !! js "c"
         = Some (StringToNumber (js "0.08")))
  /\ (projectTotal project_d = 0.35000000000000003
      /\ projectTotal project_d * 100 = 35
      /\ projectCosts (usage_snapshot [project_d]) !! js "d" = Some 0.35
      /\ (0.35 <? projectTotal project_d) = true).
Proof. repeat split; reflexivity. Qed.


End Usage.

Ltac io_unfold :=
  unfold saveServerAccounts, saveAdminPassword, saveDocument, loadServerAccounts,
    loadAdminPassword, readPasswordFile, isPasswordSavedToFile, saveSessions,
    on_disk, and_then, try_catch, bind, ret, throw, when, existsConfigDir,
    mkdirSync, existsSync, isFile, readFileSync, rmSync, writeFileSync, parse,
    replace_node, node_of in *.

Section Persistence.

Lemma saveSessions_never_throws (table : gmap jsstring Session) (d : Disk) :
  exists d', saveSessions table d = (Some tt, d').
Proof.
  io_unfold. destruct d as [st [c|]]; simpl; [|eauto].
  destruct (sessions_json c); simpl; destruct st; eauto.
Qed.

Lemma saveSessions_result (table : gmap jsstring Session) (d : Disk) :
  saveSessions table d =
    match writeFileSync SESSIONS_FILE (stored <$> table) d with
    | (Some _, d') => (Some tt, d')
    | (None, d') => (Some tt, d')
    end.
Proof.
  unfold saveSessions, try_catch, ret.
  destruct (writeFileSync SESSIONS_FILE (stored <$> table) d) as [[[]|] d'];
    reflexivity.
Qed.

(** A write succeeds exactly on a disk that can be written, in a directory
    that exists, at a path that is not a directory. *)
Lemma writeFileSync_cases {D} (f : File D) (doc : D) (d : Disk) :
  (exists d', writeFileSync f doc d = (Some tt, d')
     /\ writable d = true
     /\ d' = replace_node f (Regular (Json doc)) d
     /\ is_Some (config_dir d)
     /\ node_of f d <> Directory)
  \/ (exists d', writeFileSync f doc d = (None, d')
        /\ (writable d = false \/ config_dir d = None \/ node_of f d = Directory)).
Proof.
  unfold writeFileSync, writable, node_of.
  destruct d as [st [c|]]; simpl; [|right; eauto].
  destruct (get f c) eqn:E; destruct st; simpl; eauto 10.
  all: left; eexists; split; [reflexivity|]; repeat split; eauto; discriminate.
Qed.

Lemma persistable_write (table : gmap jsstring Session) (d : Disk) :
  persistable d ->
  exists d', writeFileSync SESSIONS_FILE table d = (Some tt, d')
    /\ node_of SESSIONS_FILE d' = Regular (Json table)
    /\ node_of PASSWORD_FILE d' = node_of PASSWORD_FILE d
    /\ node_of ACCOUNTS_FILE d' = node_of ACCOUNTS_FILE d
    /\ persistable d'.
Proof.
  intros [Hw (c & Hc & Hdir)].
  destruct d as [st [[s a p]|]]; [|discriminate Hc].
  inversion Hc; subst c; clear Hc. cbn in Hdir.
  unfold writable in Hw. cbn in Hw.
  destruct st; try discriminate Hw.
  destruct s; [| done |]; cbn; eexists; (split; [reflexivity|]);
    repeat split; eexists; (split; [reflexivity | discriminate]).
Qed.

(** C5, as the code has it: [createSession] always returns the new id with
    its record in the table in memory.  The whole table is written before it
    returns: on a disk where [sessions.json] can be written the file then
    holds the table, and when the write fails the failure is caught and the
    id is returned all the same. *)
Theorem createSession_persists (random : list N) (t1 t2 : jsstring) (pw : jsvalue)
    (w : World) :
  let sid := toHex random in
  let table :=
    <[sid := {| password := pw; createdAt := t1; lastAccessedAt := t2 |}]> (sessions w) in
  exists w', createSession random t1 t2 pw w = Returned sid w'
    /\ sessions w' = table
    /\ env_ADMIN_PASSWORD w' = env_ADMIN_PASSWORD w
    /\ disk w' = snd (writeFileSync SESSIONS_FILE (stored <$> table) (disk w))
    /\ (persistable (disk w) ->
        node_of SESSIONS_FILE (disk w') = Regular (Json (stored <$> table))).
Proof.
  intros sid table. unfold createSession. fold sid. fold table.
  unfold on_disk, and_then. simpl.
  rewrite saveSessions_result.
  destruct (writeFileSync SESSIONS_FILE (stored <$> table) (disk w))
    as [[[]|] d'] eqn:Hwrite.
  - eexists. split; [reflexivity|]. simpl. repeat split.
    intros Hper.
    destruct (persistable_write (stored <$> table) (disk w) Hper)
      as (d'' & Hw'' & Hnode & _).
    rewrite Hwrite in Hw''. inversion Hw''; subst d''. exact Hnode.
  - eexists. split; [reflexivity|]. simpl. repeat split.
    intros Hper.
    destruct (persistable_write (stored <$> table) (disk w) Hper)
      as (d'' & Hw'' & _).
    rewrite Hwrite in Hw''. discriminate Hw''.
Qed.

(** C5 fails as it is stated: without a configuration directory the write
    fails, and [createSession] returns the id. *)
Lemma createSession_swallows_write_failure :
  ~ (forall random t1 t2 pw w,
       fst (writeFileSync SESSIONS_FILE
              (stored <$>
                 <[toHex random :=
                     {| password := pw; createdAt := t1; lastAccessedAt := t2 |}]>
                   (sessions w)) (disk w)) = None ->
       exists w', createSession random t1 t2 pw w = Thrown w').
Proof.
  intros H.
  destruct (H (repeat 171 24) (js "t") (js "t") (JStr (js "secret1")) stranded)
    as [w' Hw'].
  - reflexivity.
  - discriminate Hw'.
Qed.

Lemma loadSessions_from_file (w : World) (loaded : gmap jsstring Session) :
  node_of SESSIONS_FILE (disk w) = Regular (Json loaded) ->
  loadSessions w = with_sessions (Object_assign (sessions w) loaded) w.
Proof.
  intros Hfile.
  unfold loadSessions, try_catch, bind, existsSync, readFileSync, parse, ret.
  rewrite Hfile. cbn -[node_of]. rewrite Hfile. cbn. destruct w; reflexivity.
Qed.

(** [Object.assign] sets every property of the persisted table: a persisted
    record is in the table after the load. *)
Lemma loadSessions_persisted (w : World) (loaded : gmap jsstring Session)
    (id : jsstring) (r : Session) :
  node_of SESSIONS_FILE (disk w) = Regular (Json loaded) ->
  loaded !! id = Some r ->
  sessions (loadSessions w) !! id = Some r.
Proof.
  intros Hfile Hr. rewrite (loadSessions_from_file w loaded Hfile).
  simpl. unfold Object_assign. by apply lookup_union_Some_l.
Qed.

(** Without a file that can be read and parsed the table stays as it is. *)
Lemma loadSessions_without_file (w : World) :
  (forall loaded, node_of SESSIONS_FILE (disk w) <> Regular (Json loaded)) ->
  loadSessions w = w.
Proof.
  intros Hno. destruct w as [tbl env [st [[s a p]|]]]; [|reflexivity].
  destruct s as [| |[|l]]; try reflexivity.
  by destruct (Hno l).
Qed.

(** C6: the load merges the persisted records into the table.  It is called
    once, when the process starts, on the empty table; for a table that
    shares no id with the file, as the empty one, every record of the table
    is unchanged after the load and every persisted record is added.  On
    the empty table the result is the persisted table. *)
Theorem loadSessions_merges (w : World) (loaded : gmap jsstring Session) :
  node_of SESSIONS_FILE (disk w) = Regular (Json loaded) ->
  (forall id, is_Some (sessions w !! id) -> loaded !! id = None) ->
  (forall id r, sessions w !! id = Some r ->
     sessions (loadSessions w) !! id = Some r)
  /\ (forall id r, loaded !! id = Some r -> sessions w !! id = None ->
        sessions (loadSessions w) !! id = Some r)
  /\ (sessions w = ∅ -> sessions (loadSessions w) = loaded)
  /\ disk (loadSessions w) = disk w
  /\ env_ADMIN_PASSWORD (loadSessions w) = env_ADMIN_PASSWORD w.
Proof.
  intros Hfile Hapart. rewrite (loadSessions_from_file w loaded Hfile).
  simpl. unfold Object_assign. repeat split.
  - intros id r Hr. rewrite lookup_union_r; [exact Hr|].
    apply Hapart. by exists r.
  - intros id r Hr _. by apply lookup_union_Some_l.
  - intros ->. apply (right_id_L ∅ (∪)).
Qed.

(** A save on a disk that can be written succeeds, whatever is at the path:
    a missing directory is made and a directory at the path of the file is
    removed. *)
Lemma saveDocument_accounts (doc : list jsvalue) (d : Disk) :
  writable d = true ->
  exists d', saveDocument ACCOUNTS_FILE doc d = (Some true, d')
    /\ node_of ACCOUNTS_FILE d' = Regular (Json doc)
    /\ writable d' = true.
Proof.
  destruct d as [st [[s a p]|]]; [destruct a|]; destruct st; cbn;
    intros H; try discriminate H; eauto.
Qed.

Lemma saveDocument_password (doc : PasswordDoc) (d : Disk) :
  writable d = true ->
  exists d', saveDocument PASSWORD_FILE doc d = (Some true, d')
    /\ node_of PASSWORD_FILE d' = Regular (Json doc)
    /\ writable d' = true.
Proof.
  destruct d as [st [[s a p]|]]; [destruct p|]; destruct st; cbn;
    intros H; try discriminate H; eauto.
Qed.

(** A save that reports success has written the document. *)
Lemma saved_accounts (doc : list jsvalue) (d d' : Disk) :
  saveDocument ACCOUNTS_FILE doc d = (Some true, d') ->
  node_of ACCOUNTS_FILE d' = Regular (Json doc).
Proof.
  destruct d as [st [[s a p]|]]; [destruct a|]; destruct st; cbn;
    intros H; inversion H; reflexivity.
Qed.

Lemma saved_password_doc (doc : PasswordDoc) (d d' : Disk) :
  saveDocument PASSWORD_FILE doc d = (Some true, d') ->
  node_of PASSWORD_FILE d' = Regular (Json doc).
Proof.
  destruct d as [st [[s a p]|]]; [destruct p|]; destruct st; cbn;
    intros H; inversion H; reflexivity.
Qed.

Lemma load_after_save_accounts (accounts : list jsvalue) (d : Disk) :
  node_of ACCOUNTS_FILE d = Regular (Json accounts) ->
  loadServerAccounts d = (Some accounts, d).
Proof.
  destruct d as [st [[s a p]|]]; cbn; intros H; [subst a | discriminate H].
  reflexivity.
Qed.

Lemma load_after_save_password (doc : PasswordDoc) (d : Disk) :
  node_of PASSWORD_FILE d = Regular (Json doc) ->
  readPasswordFile d = (Some (doc_password doc), d).
Proof.
  destruct d as [st [[s a p]|]]; cbn; intros H; [subst p | discriminate H].
  reflexivity.
Qed.

Lemma stored_stable (s : Session) : JSON_stable (password s) -> stored s = s.
Proof. intros H. destruct s as [pw c l]. unfold stored. cbn in *. by rewrite H. Qed.

Lemma stored_table_stable (table : gmap jsstring Session) :
  (forall id s, table !! id = Some s -> JSON_stable (password s)) ->
  stored <$> table = table.
Proof.
  intros H. apply map_eq. intros id. rewrite lookup_fmap.
  destruct (table !! id) as [s|] eqn:E; [|reflexivity].
  simpl. f_equal. apply stored_stable. by apply (H id).
Qed.

Lemma account_values_stable (l : list Account) :
  JSON_element <$> (account_value <$> l) = account_value <$> l.
Proof. induction l as [|a l IH]; [reflexivity|]. cbn. f_equal. exact IH. Qed.

(** C9: what is saved is what is loaded.  On a disk that can be written the
    save of each store succeeds, and the load that follows returns what
    [JSON.stringify] wrote: the session table of a process that starts
    empty, the accounts, the password when the environment sets none.  For
    the contents of the data model, records with a string password,
    accounts [{ name, token }] and a string password, that is the content
    that was saved. *)
Theorem stores_round_trip :
  (forall (w : World),
     persistable (disk w) ->
     exists d',
       on_disk (saveSessions (sessions w)) w = Returned tt (with_disk d' w)
       /\ sessions (restart (with_disk d' w)) = stored <$> sessions w
       /\ ((forall id s, sessions w !! id = Some s -> exists p, password s = JStr p) ->
           sessions (restart (with_disk d' w)) = sessions w))
  /\ (forall (accounts : list jsvalue) (d : Disk),
       writable d = true ->
       exists d',
         saveServerAccounts accounts d = (Some true, d')
         /\ loadServerAccounts d' = (Some (JSON_element <$> accounts), d')
         /\ (forall l : list Account, accounts = account_value <$> l ->
               loadServerAccounts d' = (Some accounts, d')))
  /\ (forall (pw : jsvalue) (env : option jsstring) (d : Disk),
       writable d = true ->
       truthy_opt env = false ->
       exists d',
         saveAdminPassword pw d = (Some true, d')
         /\ loadAdminPassword env d' = (Some (JSON_image pw), d')
         /\ (forall p, pw = JStr p ->
               loadAdminPassword env d' = (Some pw, d'))).
Proof.
  split; [|split].
  - intros w Hper.
    destruct (persistable_write (stored <$> sessions w) (disk w) Hper)
      as (d' & Hwrite & Hnode & _).
    exists d'. split.
    { unfold on_disk. rewrite saveSessions_result, Hwrite. reflexivity. }
    assert (sessions (restart (with_disk d' w)) = stored <$> sessions w) as Hload.
    { unfold restart. rewrite (loadSessions_from_file _ (stored <$> sessions w)).
      - cbn. unfold Object_assign. apply (right_id_L ∅ (∪)).
      - exact Hnode. }
    split; [exact Hload|].
    intros Hstr. rewrite Hload. apply stored_table_stable.
    intros id s Hs. destruct (Hstr id s Hs) as [p Hp]. unfold JSON_stable.
    by rewrite Hp.
  - intros accounts d Hw.
    destruct (saveDocument_accounts (JSON_element <$> accounts) d Hw)
      as (d' & Hsave & Hnode & _).
    exists d'. split; [exact Hsave|].
    assert (loadServerAccounts d' = (Some (JSON_element <$> accounts), d')) as Hload
      by (by apply load_after_save_accounts).
    split; [exact Hload|].
    intros l ->. rewrite Hload, account_values_stable. reflexivity.
  - intros pw env d Hw Henv.
    destruct (saveDocument_password {| doc_password := JSON_image pw |} d Hw)
      as (d' & Hsave & Hnode & _).
    exists d'. split; [exact Hsave|].
    assert (loadAdminPassword env d' = (Some (JSON_image pw), d')) as Hload.
    { unfold loadAdminPassword. rewrite Henv.
      apply (load_after_save_password {| doc_password := JSON_image pw |}), Hnode. }
    split; [exact Hload|]. intros p ->. exact Hload.
Qed.

End Persistence.

Section Password.

Lemma truthy_nonempty (p : jsstring) : truthy p = true <-> p <> [].
Proof. destruct p; simpl; split; congruence. Qed.

Lemma isPasswordSavedToFile_spec (d : Disk) :
  exists b, isPasswordSavedToFile d = (Some b, d)
            /\ (b = true <-> file_holds_password d).
Proof.
  unfold file_holds_password.
  destruct d as [st [[s a p]|]]; [destruct p as [| |[|[v]]]|]; cbn;
    eexists; (split; [reflexivity|]).
  all: try (split; [discriminate | intros (v' & H & _); discriminate H]).
  split.
  - intros H. exists v. split; [reflexivity | exact H].
  - intros (v' & H & Htr). inversion H; subst v'. exact Htr.
Qed.

Lemma too_short_string (pw : option jsstring) :
  too_short (of_string pw)
  = Some (match pw with
          | None => true
          | Some p => (length p <? 6)%nat
          end).
Proof.
  destruct pw as [p|]; [|reflexivity].
  unfold too_short. cbn. destruct p; reflexivity.
Qed.

(** C7, as the code has it.  With [ADMIN_PASSWORD] set to a non-empty value
    the answer is 400 whatever the file holds and whatever the candidate is,
    and so it is when the file holds a password.  For a candidate that is a
    string or is missing, the answer is 400 exactly when the environment
    sets a non-empty password, a password is saved in the file, or the
    candidate is missing or shorter than 6 characters; a success means that
    neither the environment nor the file had a password, that the candidate
    has at least 6 characters and that it is now the saved password; on a
    disk that can be written these conditions are enough. *)
Theorem set_password_rejects (w : World) :
  (forall v, truthy_opt (env_ADMIN_PASSWORD w) = true ->
     set_password v w = (Some SetByEnvironment, w))
  /\ (forall v, truthy_opt (env_ADMIN_PASSWORD w) = false ->
        file_holds_password (disk w) ->
        set_password v w = (Some AlreadySaved, w))
  /\ (forall pw : option jsstring,
        exists r w', set_password (of_string pw) w = (Some r, w')
        /\ (set_password_status r = 400 <->
              truthy_opt (env_ADMIN_PASSWORD w) = true
              \/ file_holds_password (disk w)
              \/ pw = None
              \/ (exists p, pw = Some p /\ (length p < 6)%nat))
        /\ (r = PasswordSaved ->
              truthy_opt (env_ADMIN_PASSWORD w) = false
              /\ ~ file_holds_password (disk w)
              /\ exists p, pw = Some p /\ (6 <= length p)%nat
                   /\ loadAdminPassword (env_ADMIN_PASSWORD w') (disk w')
                      = (Some (JStr p), disk w'))
        /\ (truthy_opt (env_ADMIN_PASSWORD w) = false ->
            ~ file_holds_password (disk w) ->
            (exists p, pw = Some p /\ (6 <= length p)%nat) ->
            writable (disk w) = true ->
            r = PasswordSaved)).
Proof.
  assert (with_disk (disk w) w = w) as Hw by (destruct w; reflexivity).
  split; [|split].
  - intros v Henv. unfold set_password. by rewrite Henv.
  - intros v Henv Hfile. unfold set_password. rewrite Henv.
    destruct (isPasswordSavedToFile_spec (disk w)) as (b & -> & Hb).
    apply Hb in Hfile. subst b. by rewrite Hw.
  - intros pw. unfold set_password.
    destruct (truthy_opt (env_ADMIN_PASSWORD w)) eqn:Henv.
    { exists SetByEnvironment, w. split; [reflexivity|].
      repeat split; try discriminate; auto. }
    destruct (isPasswordSavedToFile_spec (disk w)) as (b & -> & Hb).
    destruct b.
    { exists AlreadySaved, (with_disk (disk w) w). split; [reflexivity|].
      split; [|split].
      - split; [intros _; right; left; by apply Hb | reflexivity].
      - discriminate.
      - intros _ Hno. exfalso. apply Hno, Hb. reflexivity. }
    assert (~ file_holds_password (disk w)) as Hfile.
    { intros H. apply Hb in H. discriminate H. }
    rewrite too_short_string.
    destruct pw as [p|].
    2:{ exists TooShort, (with_disk (disk w) w). split; [reflexivity|].
        split; [|split].
        - split; [intros _; right; right; left; reflexivity | reflexivity].
        - discriminate.
        - intros _ _ (p & Hp & _). discriminate Hp. }
    destruct (Nat.ltb_spec (length p) 6) as [Hlen|Hlen].
    { exists TooShort, (with_disk (disk w) w). split; [reflexivity|].
      split; [|split].
      - split; [intros _; right; right; right; eauto | reflexivity].
      - discriminate.
      - intros _ _ (q & Hq & Hlen'). inversion Hq; subst q. lia. }
    assert (~ (false = true \/ file_holds_password (disk w) \/ Some p = None
               \/ exists q, Some p = Some q /\ (length q < 6)%nat)) as Hnone.
    { intros [H|[H|[H|(q & Hq & Hlen')]]]; try discriminate; [by apply Hfile|].
      inversion Hq; subst q. lia. }
    cbn [of_string].
    destruct (saveAdminPassword (JStr p) (disk w)) as [[[|]|] d'] eqn:Hsave.
    + exists PasswordSaved, (with_disk d' w). split; [reflexivity|].
      split; [|split].
      * split; [discriminate | intros H; by destruct Hnone].
      * intros _. split; [reflexivity|]. split; [exact Hfile|].
        exists p. split; [reflexivity|]. split; [exact Hlen|].
        simpl. unfold loadAdminPassword. rewrite Henv.
        apply (load_after_save_password {| doc_password := JStr p |}).
        apply (saved_password_doc _ (disk w)), Hsave.
      * reflexivity.
    + exists SaveFailed, (with_disk d' w). split; [reflexivity|].
      split; [|split].
      * split; [discriminate | intros H; by destruct Hnone].
      * discriminate.
      * intros _ _ _ Hwr.
        destruct (saveDocument_password {| doc_password := JStr p |} (disk w) Hwr)
          as (d'' & H'' & _).
        unfold saveAdminPassword in Hsave. cbn [JSON_image] in Hsave.
        rewrite H'' in Hsave. discriminate Hsave.
    + exfalso. revert Hsave. unfold saveAdminPassword, saveDocument, try_catch, ret.
      destruct (bind _ _ _) as [[?|] ?]; discriminate.
Qed.

(** C7 fails as it is stated: with [ADMIN_PASSWORD] present and empty the
    candidate is saved. *)
Lemma set_password_with_blank_environment :
  ~ (forall v w, is_Some (env_ADMIN_PASSWORD w) ->
       exists r w', set_password v w = (Some r, w')
                    /\ set_password_status r = 400).
Proof.
  intros H.
  destruct (H (JStr (js "hunter22")) blank_env) as (r & w' & Hrun & Hstatus).
  - by eexists.
  - vm_compute in Hrun. inversion Hrun; subst r. discriminate Hstatus.
Qed.

End Password.

Section Gate.

Lemma with_disk_same (w : World) : with_disk (disk w) w = w.
Proof. destruct w; reflexivity. Qed.

Lemma configured_saved (w : World) (p : jsstring) :
  configured w p <-> saved_password w (JStr p).
Proof.
  unfold configured, saved_password. cbn [js_truthy].
  rewrite truthy_nonempty. split.
  - intros [Hp [He|Hf]]; (split; [exact Hp|]); [left; eauto | right; exact Hf].
  - intros [Hp [(q & He & Hq)|Hf]]; (split; [exact Hp|]);
      [left; congruence | right; exact Hf].
Qed.

Lemma loadAdminPassword_spec (w : World) :
  exists v w1, on_disk (loadAdminPassword (env_ADMIN_PASSWORD w)) w = Returned v w1
    /\ sessions w1 = sessions w
    /\ (forall u, (v = u /\ js_truthy u = true) <-> saved_password w u).
Proof.
  unfold on_disk, loadAdminPassword, saved_password.
  destruct w as [ss env d]. cbn [env_ADMIN_PASSWORD disk sessions].
  destruct (truthy_opt env) eqn:Henv.
  - cbn. destruct env as [p|]; [|discriminate Henv].
    eexists. eexists. split; [reflexivity|]. split; [reflexivity|].
    intros u. split.
    + intros [<- Hu]. split; [exact Hu | left; eauto].
    + intros [Hu [(q & Hq & ->)|[H _]]]; [|discriminate H].
      inversion Hq; subst q. done.
  - assert (forall u, js_truthy u = true ->
              ~ exists p, env = Some p /\ u = JStr p) as Hno.
    { intros u Hu (p & -> & ->). cbn in *. congruence. }
    destruct d as [st [[s a p]|]]; [destruct p as [| |[|[q]]]|]; cbn.
    all: try destruct st; cbn.
    all: eexists; eexists; (split; [reflexivity|]); (split; [reflexivity|]).
    all: intros u; split;
      [ intros [<- Hu]; try discriminate Hu
      | intros [Hu [He|[_ H]]]; [by destruct (Hno u Hu) | try discriminate H] ].
    all: first [ split; [exact Hu|]; right; done
               | inversion H; subst; done ].
Qed.

Lemma refresh_returns (now sid : jsstring) (s : Session) (w : World) :
  exists w1, refresh now sid s w = Returned tt w1
    /\ sessions w1 = <[sid := touch now s]> (sessions w)
    /\ env_ADMIN_PASSWORD w1 = env_ADMIN_PASSWORD w.
Proof.
  unfold refresh, on_disk. cbn [disk with_sessions sessions].
  destruct (saveSessions_never_throws (<[sid:=touch now s]> (sessions w)) (disk w))
    as [d' ->].
  eexists. split; [reflexivity|]. split; reflexivity.
Qed.

Lemma strict_equal_header (h : option jsstring) (v : jsvalue) :
  js_truthy v = true ->
  strict_equal (of_string h) v = true <-> exists p, h = Some p /\ v = JStr p.
Proof.
  intros Hv. destruct h as [p|]; cbn.
  - destruct v; cbn; try (split; [discriminate | intros (q & _ & H); discriminate H]).
    rewrite bool_decide_eq_true. split.
    + intros ->. eauto.
    + intros (q & Hq & Hs). congruence.
  - destruct v; cbn in *; try discriminate Hv;
      (split; [discriminate | intros (q & H & _); discriminate H]).
Qed.

Lemma legacy_header_spec (req : Request) (w : World) :
  (exists w', legacy_header req w = Next w'
     /\ (header_password req w \/ no_password w))
  \/ (exists w', legacy_header req w = Unauthenticated w'
        /\ ~ header_password req w /\ ~ no_password w).
Proof.
  unfold legacy_header.
  destruct (loadAdminPassword_spec w) as (v & w1 & -> & _ & Hv).
  destruct (js_truthy v) eqn:Htr; simpl.
  - assert (saved_password w v) as Hsaved by (by apply Hv).
    destruct (strict_equal (of_string (h_admin_password req)) v) eqn:Heq.
    + left. eexists. split; [reflexivity|]. left.
      apply (strict_equal_header _ _ Htr) in Heq as (p & Hp & ->).
      exists p. split; [exact Hp | by apply configured_saved].
    + right. eexists. split; [reflexivity|]. split.
      * intros (q & Hq & Hcq). apply configured_saved, Hv in Hcq as [Hcq _].
        assert (strict_equal (of_string (h_admin_password req)) v = true) as H.
        { apply (strict_equal_header _ _ Htr). eauto. }
        congruence.
      * intros Hno. by apply (Hno v).
  - left. eexists. split; [reflexivity|]. right.
    intros u Hu. apply Hv in Hu as [-> Hu]. congruence.
Qed.

Lemma after_cookie (now : jsstring) (req : Request) (w : World) :
  ~ cookie_session req w ->
  let rest :=
    match bearer req with
    | Some sessionId =>
        match sessions w !! sessionId with
        | Some session =>
            match refresh now sessionId session w with
            | Returned _ w2 => Next w2
            | Thrown w2 => Uncaught w2
            end
        | None => legacy_header req w
        end
    | None => legacy_header req w
    end in
  (exists w', rest = Next w' /\ authenticates req w)
  \/ (exists w', rest = Unauthenticated w' /\ ~ authenticates req w).
Proof.
  intros Hcookie rest. subst rest.
  assert (~ bearer_session req w ->
          (exists w', legacy_header req w = Next w' /\ authenticates req w)
          \/ (exists w', legacy_header req w = Unauthenticated w'
                 /\ ~ authenticates req w)) as Hlegacy.
  { intros Hbearer.
    destruct (legacy_header_spec req w) as [(w' & -> & H)|(w' & -> & H1 & H2)].
    - left. exists w'. split; [reflexivity|]. unfold authenticates. tauto.
    - right. exists w'. split; [reflexivity|]. unfold authenticates. tauto. }
  destruct (bearer req) as [id|] eqn:Hb.
  - destruct (sessions w !! id) as [s|] eqn:Hs.
    + destruct (refresh_returns now id s w) as (w1 & -> & _).
      left. exists w1. split; [reflexivity|]. right. left. exists id. eauto.
    + apply Hlegacy. intros (id' & Hid' & [s' Hs']). congruence.
  - apply Hlegacy. intros (id' & Hid' & _). congruence.
Qed.

(** X1: the gate on a request whose cookies parse lets the request through
    exactly when one of the four channels matches, and answers 401 when none
    does.  The session table holds no empty id. *)
Theorem requireAuth_decides (now : jsstring) (req : Request) (w : World)
    (cookies : gmap jsstring jsstring) :
  parseCookies req = Some cookies ->
  sessions w !! [] = None ->
  (exists w', requireAuth now req w = Next w' /\ authenticates req w)
  \/ (exists w', requireAuth now req w = Unauthenticated w'
         /\ ~ authenticates req w).
Proof.
  intros Hparse Hempty. unfold requireAuth, getSession. rewrite Hparse.
  assert (forall sid, cookies !! js "sid" = Some sid -> sessions w !! sid = None ->
            ~ cookie_session req w) as Hmiss.
  { intros sid Hsid Hnone (c & sid' & Hc & Hsid' & [s Hs]).
    rewrite Hparse in Hc. inversion Hc; subst c. congruence. }
  destruct (cookies !! js "sid") as [sid|] eqn:Hsid.
  - destruct (truthy sid) eqn:Htr; simpl.
    + destruct (sessions w !! sid) as [s|] eqn:Hs.
      * destruct (refresh_returns now sid s w) as (w1 & -> & _). simpl.
        left. exists w1. split; [reflexivity|]. left.
        exists cookies, sid. eauto.
      * apply after_cookie. by apply (Hmiss sid).
    + apply after_cookie. apply (Hmiss sid); [reflexivity|].
      destruct sid; [exact Hempty | discriminate Htr].
  - apply after_cookie.
    intros (c & sid' & Hc & Hsid' & _). rewrite Hparse in Hc.
    inversion Hc; subst c. congruence.
Qed.

(** C1 on a cookie header with a percent sign that starts no escape:
    [decodeURIComponent] throws, nothing in [requireAuth] catches it, and the
    request is not let through, although its bearer id is in the table and
    its password header is the configured password; the same request without
    the cookie is let through.  With the cookie alone no channel matches, and
    the request is not answered by the 401 of the gate either. *)
Theorem requireAuth_malformed_cookie :
  bearer_session malformed logged_in
  /\ header_password malformed logged_in
  /\ requireAuth (js "t1") malformed logged_in = Uncaught logged_in
  /\ (exists w', requireAuth (js "t1") well_formed logged_in = Next w')
  /\ ~ authenticates malformed_only logged_in
  /\ requireAuth (js "t1") malformed_only logged_in = Uncaught logged_in.
Proof.
  split; [|split; [|split; [|split; [|split]]]].
  - exists sid0. split; [reflexivity|]. eexists. reflexivity.
  - exists (js "secret1"). split; [reflexivity|]. split; [discriminate|].
    left. reflexivity.
  - reflexivity.
  - eexists. reflexivity.
  - intros [(c & sid & Hc & _)|[(id & Hid & _)|[(p & Hp & _)|Hno]]];
      try discriminate.
    apply (Hno (JStr (js "secret1"))). split; [reflexivity | left; eauto].
  - reflexivity.
Qed.

End Gate.

Section Batch.

Local Open Scope float_scope.

Lemma own_define_eq (k : jsstring) (v : jsvalue) (props : list (jsstring * jsvalue)) :
  own k (define k v props) = Some v.
Proof.
  induction props as [|[k' v'] rest IH]; simpl.
  - by rewrite bool_decide_eq_true_2.
  - case_bool_decide as Hk; simpl.
    + by rewrite bool_decide_eq_true_2.
    + by rewrite bool_decide_eq_false_2.
Qed.

Lemma own_define_ne (k k' : jsstring) (v : jsvalue)
    (props : list (jsstring * jsvalue)) :
  k <> k' -> own k (define k' v props) = own k props.
Proof.
  intros Hne. induction props as [|[k0 v0] rest IH]; simpl.
  - by rewrite bool_decide_eq_false_2.
  - case_bool_decide as Hk; simpl.
    + subst k0. by rewrite !bool_decide_eq_false_2.
    + case_bool_decide; [reflexivity | exact IH].
Qed.

Lemma account_data_fields (user : jsvalue) (u : UsageData) :
  own (js "credit") (account_data user u)
    = Some (JNum (Math_round (freeQuotaRemaining u * 100)))
  /\ own (js "totalUsage") (account_data user u) = Some (JNum (totalUsage u))
  /\ own (js "totalCost") (account_data user u) = Some (JNum (totalUsage u))
  /\ own (js "freeQuotaLimit") (account_data user u) = Some (JNum (freeQuotaLimit u)).
Proof.
  unfold account_data. repeat split.
  - rewrite !own_define_ne by discriminate. apply own_define_eq.
  - rewrite !own_define_ne by discriminate. apply own_define_eq.
  - rewrite own_define_ne by discriminate. apply own_define_eq.
  - apply own_define_eq.
Qed.

Lemma nameable_name (account : jsvalue) :
  nameable account ->
  getprop (js "name") account = Some (chain (js "name") account)
  /\ printable (chain (js "name") account) = true.
Proof. intros (n & Hn & Hp). unfold chain. rewrite Hn. done. Qed.

Lemma account_task_outcome (account : jsvalue) (up : Upstream) :
  nameable account ->
  account_task account up = Fulfilled (account_outcome account up).
Proof.
  intros Hname. destruct (nameable_name account Hname) as [Hn Hp].
  unfold account_task, account_outcome.
  destruct (account_pipeline account up); [reflexivity|].
  by rewrite Hn, Hp.
Qed.

Lemma in_input_order_fulfilled {A} (vs : list A) :
  in_input_order (Fulfilled <$> vs) = inl vs.
Proof.
  induction vs as [|v vs IH]; [done|].
  rewrite fmap_cons. cbn [in_input_order]. by rewrite IH.
Qed.

Lemma in_input_order_inl {A} (ps : list (promise A)) (vs : list A) :
  in_input_order ps = inl vs -> ps = Fulfilled <$> vs.
Proof.
  revert vs. induction ps as [|[a|e] ps IH]; intros vs; cbn [in_input_order].
  - intros H. by inversion H.
  - destruct (in_input_order ps) as [vs'|e]; intros H; inversion H; subst vs.
    rewrite fmap_cons. f_equal. by apply IH.
  - discriminate.
Qed.

Lemma tasks_fulfilled (upstream : nat -> Upstream) (l : list jsvalue) :
  Forall nameable l ->
  imap (fun i a => account_task a (upstream i)) l
  = Fulfilled <$> imap (fun i a => account_outcome a (upstream i)) l.
Proof.
  intros Hl. revert upstream.
  induction Hl as [|a l Ha _ IH]; intros upstream; simpl; [done|].
  rewrite (account_task_outcome a _ Ha). f_equal. apply (IH (upstream ∘ S)).
Qed.

Lemma temp_accounts_results (order : list nat) (upstream : nat -> Upstream)
    (l : list jsvalue) :
  Forall nameable l ->
  temp_accounts order upstream (JArr l)
  = Results (imap (fun i a => account_outcome a (upstream i)) l).
Proof.
  intros Hl. unfold temp_accounts, Promise_all.
  by rewrite (tasks_fulfilled _ _ Hl), in_input_order_fulfilled.
Qed.

(** The results of a batch that was answered are the values of the tasks. *)
Lemma temp_accounts_inv (order : list nat) (upstream : nat -> Upstream)
    (accounts : jsvalue) (results : list AccountResult) :
  temp_accounts order upstream accounts = Results results ->
  exists l, accounts = JArr l
    /\ imap (fun i a => account_task a (upstream i)) l = Fulfilled <$> results.
Proof.
  unfold temp_accounts, Promise_all.
  destruct accounts as [| | | | |l|]; try discriminate.
  destruct (in_input_order _) as [vs|e] eqn:E; [|discriminate].
  intros H. inversion H; subst vs. exists l. split; [reflexivity|].
  by apply in_input_order_inl.
Qed.

Lemma task_of_result (order : list nat) (upstream : nat -> Upstream)
    (l : list jsvalue) (results : list AccountResult) (i : nat) (a : jsvalue) :
  temp_accounts order upstream (JArr l) = Results results ->
  l !! i = Some a ->
  exists r, results !! i = Some r /\ account_task a (upstream i) = Fulfilled r.
Proof.
  intros Hres Ha.
  destruct (temp_accounts_inv _ _ _ _ Hres) as (l' & Hl' & Htasks).
  inversion Hl'; subst l'; clear Hl'.
  assert (imap (fun i a => account_task a (upstream i)) l !! i
          = Some (account_task a (upstream i))) as Hi
    by (by rewrite list_lookup_imap, Ha).
  rewrite Htasks, list_lookup_fmap in Hi.
  destruct (results !! i) as [r|]; [|discriminate Hi].
  exists r. split; [reflexivity|]. by inversion Hi.
Qed.

Lemma account_outcome_cases (account : jsvalue) (up : Upstream) :
  (exists data aihub,
      account_outcome account up = Success (chain (js "name") account) data aihub
      /\ account_pipeline account up
         = Fulfilled (Success (chain (js "name") account) data aihub))
  \/ (exists e, account_outcome account up = Failure (chain (js "name") account) e
        /\ account_pipeline account up = Rejected e).
Proof.
  unfold account_outcome, account_pipeline, chain.
  destruct (getprop (js "name") account) as [n|]; [|right; eauto].
  cbn [default].
  destruct (printable n); cbn [negb]; [|right; eauto].
  destruct (fetchAccountData _ up) as [d|e]; [|right; eauto].
  destruct (printable _ && printable _); [left; eauto | right; eauto].
Qed.

(** C4, and the input on which the code misses it.  For a batch whose
    elements all have a [name] that can be read and written to the log, the
    handler answers with the array of results, one for each account and in
    the order of the accounts, whatever the order in which the accounts
    finish; the result at an index is the success record of the account at
    that index or the failure record with the error of its own pipeline, and
    it is the same in every answered batch that has this account and these
    upstream answers at that index.  But an element that is [null] makes
    the [catch] of its own function throw: [Promise.all] rejects and the
    whole batch is answered with 500, the result of the valid account
    included. *)
Theorem batch_isolation :
  (forall (order : list nat) (upstream : nat -> Upstream) (accounts : list jsvalue),
     Forall nameable accounts ->
     exists results,
       temp_accounts order upstream (JArr accounts) = Results results
       /\ length results = length accounts
       /\ (forall i a, accounts !! i = Some a ->
            exists r, results !! i = Some r
              /\ account_task a (upstream i) = Fulfilled r
              /\ ((exists data aihub,
                      r = Success (chain (js "name") a) data aihub
                      /\ account_pipeline a (upstream i) = Fulfilled r)
                  \/ (exists e, r = Failure (chain (js "name") a) e
                        /\ account_pipeline a (upstream i) = Rejected e)))
       /\ (forall order' upstream' accounts' results' i a,
            temp_accounts order' upstream' (JArr accounts') = Results results' ->
            accounts !! i = Some a -> accounts' !! i = Some a ->
            upstream' i = upstream i ->
            results' !! i = results !! i))
  /\ (forall (order : list nat) (upstream : nat -> Upstream),
        temp_accounts order upstream (JArr [account_value account_a; JNull])
        = ServerError TypeError)
  /\ (forall (order : list nat),
        temp_accounts order (fun _ => answering NetTimeout)
          (JArr [account_value account_a])
        = Results [Success (JStr (js "A"))
                     (account_data (chain (js "me") (chain (js "data") me_body))
                        initial_usage)
                     (JObj [])]).
Proof.
  split; [|split].
  - intros order upstream accounts Hnames.
    eexists. split; [by apply temp_accounts_results|]. split; [|split].
    + apply length_imap.
    + intros i a Ha.
      assert (nameable a) as Hname.
      { apply (proj1 (Forall_forall _ _) Hnames), (list_elem_of_lookup_2 _ i), Ha. }
      exists (account_outcome a (upstream i)).
      split; [by rewrite list_lookup_imap, Ha|].
      split; [by apply account_task_outcome|].
      destruct (account_outcome_cases a (upstream i))
        as [(data & aihub & H1 & H2)|(e & H1 & H2)]; rewrite H1.
      * left. exists data, aihub. by rewrite <- H1 at 2.
      * right. eauto.
    + intros order' upstream' accounts' results' i a Hres Ha Ha' Hup.
      destruct (task_of_result _ _ _ _ i a Hres Ha') as (r & Hr & Htask).
      assert (nameable a) as Hname.
      { apply (proj1 (Forall_forall _ _) Hnames), (list_elem_of_lookup_2 _ i), Ha. }
      rewrite Hup, (account_task_outcome a _ Hname) in Htask.
      inversion Htask; subst r.
      by rewrite Hr, list_lookup_imap, Ha.
  - intros order upstream. unfold temp_accounts, Promise_all.
    cbn [imap]. unfold compose.
    destruct (account_task (account_value account_a) (upstream 0%nat)) as [r|e] eqn:E.
    + cbn. destruct order as [|i rest]; [reflexivity|].
      assert (forall o, default TypeError
                 (first_rejection o [Fulfilled r; @Rejected AccountResult TypeError])
               = TypeError) as Hall.
      { induction o as [|j o IH]; [reflexivity|]. cbn.
        destruct j as [|[|j]]; cbn; [exact IH | reflexivity | exact IH]. }
      by rewrite Hall.
    + exfalso. revert E. unfold account_task, account_pipeline.
      cbn. destruct (fetchAccountData _ _); [|discriminate].
      destruct (printable _ && printable _); discriminate.
  - intros order. reflexivity.
Qed.

Lemma usage_of_remaining (token : jsvalue) (d : AccountData) (up : Upstream) :
  freeQuotaRemaining (usage_of token d up) = 5 - totalUsage (usage_of token d up).
Proof.
  unfold usage_of, fetchUsageData. destruct (js_truthy _); [|reflexivity].
  destruct (negb (sendable token)); [reflexivity|].
  destruct (usage_reply up) as [m| |[| |l]]; reflexivity.
Qed.

Lemma Math_round_nearest (x : float) (q : Q) :
  exact x = Some q ->
  exists n, Math_round x = integral x n /\ nearest_integer x n.
Proof.
  intros Hq. exists (Qfloor (q + (1 # 2))). unfold Math_round. rewrite Hq.
  split; [reflexivity|]. exists q. split; [exact Hq|].
  pose proof (Qfloor_le (q + (1 # 2))) as Hle.
  pose proof (Qlt_floor (q + (1 # 2))) as Hlt.
  rewrite inject_Z_plus in Hlt. change (inject_Z 1) with 1%Q in Hlt.
  set (n := inject_Z (Qfloor (q + (1 # 2)))) in *. clearbody n.
  split; lra.
Qed.

(** C8: when the four queries of an account went through, its pipeline
    reached the usage query and that query fails, the account still ends with
    a success record, built from the snapshot with no usage: total usage and
    total cost 0, the whole free quota of 5, a credit of 500 cents. *)
Theorem usage_failure_keeps_success (account name : jsvalue) (up : Upstream)
    (d : AccountData) (e : Error) :
  getprop (js "name") account = Some name ->
  printable name = true ->
  fetchAccountData (chain (js "token") account) up = Fulfilled d ->
  reaches_usage_query d = true ->
  fetchUsageData (chain (js "token") account) (usage_reply up) = Rejected e ->
  let data := account_data (user d) initial_usage in
  account_task account up = Fulfilled (Success name data (aihub d))
  /\ own (js "totalUsage") data = Some (JNum 0)
  /\ own (js "totalCost") data = Some (JNum 0)
  /\ own (js "freeQuotaLimit") data = Some (JNum 5)
  /\ own (js "credit") data = Some (JNum 500).
Proof.
  intros Hname Hprint Hdata Hreach Husage data.
  unfold reaches_usage_query in Hreach.
  apply andb_true_iff in Hreach as [Hlog Hid].
  split.
  - unfold account_task, account_pipeline. rewrite Hname, Hprint. cbn [negb].
    cbv zeta. rewrite Hdata, Hlog.
    unfold usage_of. rewrite Hid, Husage. reflexivity.
  - destruct (account_data_fields (user d) initial_usage) as (H1 & H2 & H3 & H4).
    subst data. rewrite H1, H2, H3, H4. repeat split.
Qed.

(** C10: in a success record of the batch the credit is
    round((5 - totalUsage) * 100) for the total usage of the record, computed
    on the numbers of the code: the integer nearest to the product, whatever
    credit the identity query returned.  It is 500 when the usage query
    failed. *)
Theorem credit_is_remaining_quota (order : list nat) (upstream : nat -> Upstream)
    (accounts : list jsvalue) (results : list AccountResult) (i : nat)
    (name : jsvalue) (data : list (jsstring * jsvalue)) (aihub : jsvalue) :
  temp_accounts order upstream (JArr accounts) = Results results ->
  results !! i = Some (Success name data aihub) ->
  exists total,
    own (js "totalUsage") data = Some (JNum total)
    /\ own (js "credit") data = Some (JNum (Math_round ((5 - total) * 100)))
    /\ (forall q, exact ((5 - total) * 100) = Some q ->
          exists n, own (js "credit") data
                    = Some (JNum (integral ((5 - total) * 100) n))
                    /\ nearest_integer ((5 - total) * 100) n)
    /\ (forall a e, accounts !! i = Some a ->
          fetchUsageData (chain (js "token") a) (usage_reply (upstream i))
          = Rejected e ->
          own (js "credit") data = Some (JNum 500)).
Proof.
  intros Hres Hi.
  assert (exists a, accounts !! i = Some a) as [a Ha].
  { destruct (temp_accounts_inv _ _ _ _ Hres) as (l & Hl & Htasks).
    inversion Hl; subst l.
    destruct (accounts !! i) as [a|] eqn:E; [eauto|].
    apply lookup_ge_None in E.
    assert (length results = length accounts) as Hlen.
    { rewrite <- (length_fmap Fulfilled results), <- Htasks. apply length_imap. }
    apply lookup_lt_Some in Hi. lia. }
  destruct (task_of_result _ _ _ _ i a Hres Ha) as (r & Hr & Htask).
  rewrite Hi in Hr. inversion Hr; subst r; clear Hr.
  unfold account_task, account_pipeline in Htask.
  destruct (getprop (js "name") a) as [n|]; [|discriminate Htask].
  destruct (printable n); cbn [negb] in Htask; [|discriminate Htask].
  cbv zeta in Htask.
  destruct (fetchAccountData _ (upstream i)) as [d|e]; [|discriminate Htask].
  destruct (printable _ && printable _); [|discriminate Htask].
  inversion Htask; subst; clear Htask.
  destruct (account_data_fields (user d)
              (usage_of (chain (js "token") a) d (upstream i)))
    as (Hcredit & Htotal & _).
  rewrite usage_of_remaining in Hcredit.
  eexists. split; [exact Htotal|]. split; [exact Hcredit|]. split.
  - intros q Hq. destruct (Math_round_nearest _ q Hq) as (n & Hn & Hnear).
    exists n. split; [|exact Hnear]. by rewrite Hcredit, Hn.
  - intros a' e Ha' He. rewrite Ha in Ha'. inversion Ha'; subst a'.
    destruct (account_data_fields (user d)
                (usage_of (chain (js "token") a) d (upstream i)))
      as (Hc & _).
    rewrite Hc. unfold usage_of. rewrite He.
    destruct (js_truthy _); reflexivity.
Qed.

End Batch.

(** * Runs on concrete inputs *)

Section Runs.

Local Open Scope float_scope.

Example decode_plain : Uri.decodeURIComponent (js "abc-123") = Some (js "abc-123").
Proof. reflexivity. Qed.

Example decode_space : Uri.decodeURIComponent (js "a%20b") = Some (js "a b").
Proof. reflexivity. Qed.

Example decode_three_octets : Uri.decodeURIComponent (js "%E4%BD%A0") = Some [20320%N].
Proof. reflexivity. Qed.

Example decode_surrogate_pair :
  Uri.decodeURIComponent (js "%F0%9F%98%80") = Some [55357%N; 56832%N].
Proof. reflexivity. Qed.

Example decode_lone_percent : Uri.decodeURIComponent (js "%") = None.
Proof. reflexivity. Qed.

Example decode_overlong : Uri.decodeURIComponent (js "%C0%80") = None.
Proof. reflexivity. Qed.

Example decode_surrogate : Uri.decodeURIComponent (js "%ED%A0%80") = None.
Proof. reflexivity. Qed.

Example cookies_last_wins :
  parseCookies {| h_cookie := Some (js "theme=dark; sid=abc; flag; sid = xyz ");
                  h_authorization := None; h_admin_password := None |}
  ≫= (fun c => c !! js "sid") = Some (js "xyz").
Proof. reflexivity. Qed.

Example cookie_session_passes :
  exists w', requireAuth (js "t1")
               {| h_cookie := Some (js "sid=" ++ sid0);
                  h_authorization := None; h_admin_password := None |}
               logged_in = Next w'
             /\ lastAccessedAt <$> sessions w' !! sid0 = Some (js "t1").
Proof. eexists. split; reflexivity. Qed.

Example no_credential_is_refused :
  requireAuth (js "t1")
    {| h_cookie := None; h_authorization := None; h_admin_password := None |}
    logged_in = Unauthenticated logged_in.
Proof. reflexivity. Qed.

(** The numbers of the code. *)
Example sum_of_fifty_tenths :
  float_sum (repeat 0.1 50) = 4.9999999999999982
  /\ 5 - float_sum (repeat 0.1 50) = 1.7763568394002505e-15.
Proof. split; reflexivity. Qed.

Example Math_round_ties :
  Math_round 2.5 = 3 /\ Math_round (-2.5) = -2
  /\ Math_round 0.49999999999999994 = 0
  /\ Math_round 489.49999999999994 = 489.
Proof. repeat split; reflexivity. Qed.

Example Math_ceil_runs :
  Math_ceil 7.1 = 8 /\ Math_ceil 7 = 7 /\ Math_ceil (-7.1) = -7
  /\ Math_ceil 7.0000000000000009 = 8.
Proof. repeat split; reflexivity. Qed.

Example numeric_strings :
  StringToNumber (js " 12 ") = 12 /\ StringToNumber (js "0x1F") = 31
  /\ StringToNumber (js "1.5e-3") = 0.0015 /\ StringToNumber (js "") = 0
  /\ is_nan (StringToNumber (js "1,2")) = true.
Proof. repeat split; reflexivity. Qed.

(** What a JSON text keeps. *)
Example image_of_numbers :
  JSON_image (JArr [JNum (-0); JNum infinity; JNum 1.5; JStr (js "a")])
  = JArr [JNum 0; JNull; JNum 1.5; JStr (js "a")].
Proof. reflexivity. Qed.

(** A disk without space: the session is created, and the file is cut. *)
Example write_on_a_full_disk :
  exists w', createSession (repeat 171%N 24) (js "t1") (js "t1") (JStr (js "secret1"))
               crowded = Returned sid0 w'
    /\ is_Some (sessions w' !! sid0)
    /\ node_of SESSIONS_FILE (disk w') = Regular Garbage
    /\ sessions (restart w') = ∅.
Proof. eexists. repeat split. by eexists. Qed.

(** Candidates that are no strings: the number 12345 has no [length] and is
    saved; an array is measured by its elements. *)
Example numeric_candidate_is_saved :
  exists w', set_password (JNum 12345) first_run = (Some PasswordSaved, w')
    /\ loadAdminPassword None (disk w') = (Some (JNum 12345), disk w')
    /\ (forall now p,
          requireAuth now {| h_cookie := None; h_authorization := None;
                             h_admin_password := Some p |} w'
          = Unauthenticated w').
Proof.
  eexists. split; [reflexivity|]. split; [reflexivity|]. intros now p. reflexivity.
Qed.

Example other_candidates :
  fst (set_password (JArr [JNum 1; JNum 2]) first_run) = Some TooShort
  /\ fst (set_password (JObj [(js "length", JStr (js "3"))]) first_run) = Some TooShort
  /\ fst (set_password (JObj [(js "length", JStr (js "7"))]) first_run)
     = Some PasswordSaved
  /\ fst (set_password (JObj [(js "length", JObj [(js "toString", JNull)])]) first_run)
     = None
  /\ fst (set_password (JBool true) first_run) = Some PasswordSaved.
Proof. repeat split; reflexivity. Qed.

Example one_failure_in_a_batch :
  temp_accounts [1; 0]%nat
    (fun i => match i with O => answering NetTimeout | _ => silent end)
    (JArr [account_value account_a; account_value account_b])
  = Results [Success (JStr (js "A"))
               (account_data (chain (js "me") (chain (js "data") me_body))
                  initial_usage) (JObj []);
             Failure (JStr (js "B")) RequestTimeout].
Proof. reflexivity. Qed.

(** A token that cannot be sent in a header fails its own account only. *)
Example unsendable_token :
  temp_accounts [0; 1]%nat (fun _ => answering NetTimeout)
    (JArr [JObj [(js "name", JStr (js "A")); (js "token", JStr [10%N])];
           account_value account_b])
  = Results [Failure (JStr (js "A")) TypeError;
             Success (JStr (js "B"))
               (account_data (chain (js "me") (chain (js "data") me_body))
                  initial_usage) (JObj [])].
Proof. reflexivity. Qed.

(** The load of a starting process over the file another one left. *)
Lemma loadSessions_merges_witness :
  sessions (start None left_behind) = {[ js "ab" := new_record ]}.
Proof.
  refine (proj1 (proj2 (proj2
    (loadSessions_merges
       {| sessions := ∅; env_ADMIN_PASSWORD := None; disk := left_behind |}
       {[ js "ab" := new_record ]} eq_refl _))) eq_refl).
  intros id [r Hr]. cbv in Hr. discriminate Hr.
Defined.

(** The three stores saved and loaded: a table with one session, two
    accounts, and a password. *)
Lemma stores_round_trip_witness :
  (exists d', on_disk (saveSessions (sessions logged_in)) logged_in
              = Returned tt (with_disk d' logged_in)
     /\ sessions (restart (with_disk d' logged_in)) = sessions logged_in)
  /\ (exists d', saveServerAccounts [account_value account_a; account_value account_b]
                   writable_disk = (Some true, d')
        /\ loadServerAccounts d'
           = (Some [account_value account_a; account_value account_b], d'))
  /\ (exists d', saveAdminPassword (JStr (js "hunter22")) writable_disk = (Some true, d')
        /\ loadAdminPassword None d' = (Some (JStr (js "hunter22")), d')).
Proof.
  destruct stores_round_trip as (Hs & Ha & Hp). split; [|split].
  - destruct (Hs logged_in) as (d' & Hsave & _ & Hload).
    { split; [reflexivity|]. eexists. split; [reflexivity | discriminate]. }
    exists d'. split; [exact Hsave|]. apply Hload.
    intros id s Hid. unfold logged_in in Hid. cbn [sessions] in Hid.
    apply lookup_singleton_Some in Hid as [_ <-]. by eexists.
  - destruct (Ha [account_value account_a; account_value account_b] writable_disk
                eq_refl) as (d' & Hsave & _ & Hload).
    exists d'. split; [exact Hsave|]. by apply (Hload [account_a; account_b]).
  - destruct (Hp (JStr (js "hunter22")) None writable_disk eq_refl eq_refl)
      as (d' & Hsave & _ & Hload).
    exists d'. split; [exact Hsave|]. by apply (Hload (js "hunter22")).
Defined.

(** An account whose usage query times out. *)
Lemma usage_failure_keeps_success_witness :
  account_task (account_value account_a) (answering NetTimeout)
  = Fulfilled (Success (JStr (js "A"))
                 (account_data (chain (js "me") (chain (js "data") me_body))
                    initial_usage)
                 (JObj [])).
Proof.
  refine (proj1 (usage_failure_keeps_success (account_value account_a) _
                   (answering NetTimeout) _ RequestTimeout
                   eq_refl eq_refl eq_refl eq_refl eq_refl)).
Defined.

(** An account with the raw costs 0.071 and 0.034 and an upstream credit of
    42: the total is 0.105, the product (5 - 0.105) * 100 is
    489.49999999999994, and the credit is 489. *)
Lemma credit_is_remaining_quota_witness :
  exists data aihub,
    temp_accounts [0%nat]
      (fun _ => answering (NetBody (Usages [project_a; project_b])))
      (JArr [account_value account_a])
    = Results [Success (JStr (js "A")) data aihub]
    /\ own (js "totalUsage") data = Some (JNum 0.105)
    /\ own (js "credit") data = Some (JNum 489).
Proof.
  eexists _, _. split; [reflexivity|].
  destruct (credit_is_remaining_quota [0%nat]
              (fun _ => answering (NetBody (Usages [project_a; project_b])))
              [account_value account_a] _ 0 _ _ _ eq_refl eq_refl)
    as (total & Htotal & Hcredit & _).
  vm_compute in Htotal. inversion Htotal; subst total; clear Htotal.
  split; [reflexivity | exact Hcredit].
Defined.

(** A request with the cookie of the stored session. *)
Lemma requireAuth_decides_witness :
  (exists w', requireAuth (js "t1")
                {| h_cookie := Some (js "sid=" ++ sid0);
                   h_authorization := None; h_admin_password := None |}
                logged_in = Next w'
              /\ authenticates
                   {| h_cookie := Some (js "sid=" ++ sid0);
                      h_authorization := None; h_admin_password := None |}
                   logged_in)
  \/ (exists w', requireAuth (js "t1")
                   {| h_cookie := Some (js "sid=" ++ sid0);
                      h_authorization := None; h_admin_password := None |}
                   logged_in = Unauthenticated w'
                 /\ ~ authenticates
                      {| h_cookie := Some (js "sid=" ++ sid0);
                         h_authorization := None; h_admin_password := None |}
                      logged_in).
Proof.
  eapply (requireAuth_decides (js "t1") _ logged_in).
  - reflexivity.
  - reflexivity.
Defined.

End Runs.


(** * Further properties *)

Section Cookies.

Lemma items_without_percent (s : jsstring) :
  37 ∉ s -> Uri.items s = Some (Uri.Lit <$> s).
Proof.
  induction s as [|c r IH]; intros Hs; [reflexivity|].
  apply not_elem_of_cons in Hs as [Hc Hr]. cbn [Uri.items].
  destruct (N.eqb_spec c 37) as [->|_]; [done|].
  rewrite (IH Hr). reflexivity.
Qed.

Lemma utf8_literals (s : jsstring) : Uri.utf8 (Uri.Lit <$> s) = Some s.
Proof.
  induction s as [|c r IH]; [reflexivity|].
  rewrite fmap_cons. cbn [Uri.utf8]. rewrite IH. reflexivity.
Qed.

Lemma decode_without_percent (s : jsstring) :
  37 ∉ s -> Uri.decodeURIComponent s = Some s.
Proof.
  intros Hs. unfold Uri.decodeURIComponent.
  rewrite (items_without_percent s Hs). simpl. apply utf8_literals.
Qed.

Lemma trimStart_suffix (s : jsstring) : exists n, trimStart s = drop n s.
Proof.
  induction s as [|c r [n IH]]; [by exists O|]. simpl.
  destruct (is_space c); [by exists (S n) | by exists O].
Qed.

Lemma elem_of_trimStart (x : N) (s : jsstring) : x ∈ trimStart s -> x ∈ s.
Proof.
  destruct (trimStart_suffix s) as [n ->]. intros H.
  rewrite <- (take_drop n s). apply elem_of_app. by right.
Qed.

Lemma elem_of_trim (x : N) (s : jsstring) : x ∈ trim s -> x ∈ s.
Proof.
  unfold trim. intros H.
  apply list_elem_of_In, in_rev, list_elem_of_In, elem_of_trimStart in H.
  apply list_elem_of_In, in_rev, list_elem_of_In in H.
  by apply elem_of_trimStart.
Qed.

Lemma elem_of_split (sep x : N) (s piece : jsstring) :
  piece ∈ split sep s -> x ∈ piece -> x ∈ s.
Proof.
  revert piece. induction s as [|c r IH]; intros piece; simpl.
  - intros Hp Hx. apply list_elem_of_singleton in Hp. by subst piece.
  - destruct (c =? sep).
    + intros Hp Hx. apply elem_of_cons in Hp as [->|Hp].
      * by apply not_elem_of_nil in Hx.
      * right. by apply (IH piece).
    + destruct (split sep r) as [|p ps] eqn:E.
      * intros Hp Hx. apply list_elem_of_singleton in Hp. subst piece.
        apply list_elem_of_singleton in Hx. subst x. left.
      * intros Hp Hx. apply elem_of_cons in Hp as [->|Hp].
        -- apply elem_of_cons in Hx as [->|Hx]; [left|].
           right. apply (IH p); [left | done].
        -- right. apply (IH piece); [by right | done].
Qed.

Lemma parsePair_without_percent (acc : gmap jsstring jsstring) (pair : jsstring) :
  37 ∉ pair -> is_Some (parsePair (Some acc) pair).
Proof.
  intros Hp. unfold parsePair. simpl.
  destruct (indexOf 61 pair) as [idx|]; [|eauto].
  rewrite decode_without_percent; [simpl; eauto|].
  intros H. apply elem_of_trim in H. apply Hp.
  rewrite <- (take_drop (S idx) pair). apply elem_of_app. by right.
Qed.

Lemma parsePairs_without_percent (pairs : list jsstring)
    (acc : gmap jsstring jsstring) :
  (forall pair, pair ∈ pairs -> 37 ∉ pair) ->
  is_Some (fold_left parsePair pairs (Some acc)).
Proof.
  revert acc. induction pairs as [|p ps IH]; intros acc Hps; cbn [fold_left];
    [eauto|].
  destruct (parsePair_without_percent acc p) as [acc' ->].
  - apply Hps. left.
  - apply IH. intros pair Hpair. apply Hps. by right.
Qed.

(** X2: only a percent sign can make [parseCookies] throw.  On a request
    whose [Cookie] header has none the cookies parse, and
    [decodeURIComponent] returns such a text as it is. *)
Theorem parseCookies_without_percent (req : Request) :
  (forall header, h_cookie req = Some header -> 37 ∉ header) ->
  is_Some (parseCookies req)
  /\ (forall header, h_cookie req = Some header ->
        Uri.decodeURIComponent header = Some header).
Proof.
  intros Hreq. split.
  - unfold parseCookies. destruct (h_cookie req) as [header|]; [|eauto].
    destruct (truthy header); [|eauto].
    apply parsePairs_without_percent. intros pair Hpair Hx.
    apply (Hreq header eq_refl). by apply (elem_of_split 59 37 header pair).
  - intros header Hh. apply decode_without_percent, (Hreq header Hh).
Qed.

Lemma hex_digit_lower (d : N) : d < 16 -> lower_hex (hex_digit d) = true.
Proof.
  intros Hd. unfold lower_hex, hex_digit.
  destruct (N.ltb_spec d 10).
  - apply orb_true_iff. left. apply andb_true_iff.
    split; apply N.leb_le; lia.
  - apply orb_true_iff. right. apply andb_true_iff.
    split; apply N.leb_le; lia.
Qed.

Lemma toHex_lower (bytes : list N) :
  Forall (fun b => b < 256) bytes ->
  Forall (fun c => lower_hex c = true) (toHex bytes).
Proof.
  induction 1 as [|b bs Hb _ IH]; [constructor|].
  unfold toHex. simpl. fold (toHex bs).
  constructor; [|constructor; [|exact IH]].
  - apply hex_digit_lower. apply N.Div0.div_lt_upper_bound. lia.
  - apply hex_digit_lower. apply N.mod_lt. lia.
Qed.

Lemma toHex_length (bytes : list N) :
  length (toHex bytes) = (2 * length bytes)%nat.
Proof.
  induction bytes as [|b bs IH]; [reflexivity|].
  unfold toHex. simpl. fold (toHex bs). rewrite IH. lia.
Qed.

Lemma lower_hex_plain (c : N) :
  lower_hex c = true ->
  c <> 37 /\ c <> 59 /\ c <> 61 /\ is_space c = false.
Proof.
  unfold lower_hex. intros H.
  apply orb_true_iff in H as [H|H]; apply andb_true_iff in H as [H1 H2];
    apply N.leb_le in H1; apply N.leb_le in H2.
  all: repeat split; try lia.
  all: unfold is_space.
  all: repeat match goal with
         | |- context [?a <=? ?b] =>
             destruct (N.leb_spec a b); try lia
         | |- context [?a =? ?b] =>
             destruct (N.eqb_spec a b); try lia
         end; reflexivity.
Qed.

Lemma split_without_separator (sep : N) (s : jsstring) :
  sep ∉ s -> split sep s = [s].
Proof.
  induction s as [|c r IH]; intros Hs; [reflexivity|].
  apply not_elem_of_cons in Hs as [Hc Hr]. simpl.
  destruct (N.eqb_spec c sep) as [->|_]; [done|].
  by rewrite (IH Hr).
Qed.

Lemma trimStart_id (s : jsstring) :
  head s ≫= (fun c => if is_space c then Some c else None) = None ->
  trimStart s = s.
Proof.
  destruct s as [|c r]; [reflexivity|]. simpl.
  destruct (is_space c); [discriminate | reflexivity].
Qed.

Lemma trim_plain (s : jsstring) :
  Forall (fun c => is_space c = false) s -> trim s = s.
Proof.
  intros Hs. unfold trim.
  rewrite (trimStart_id s).
  - rewrite trimStart_id; [apply rev_involutive|].
    assert (Forall (fun c => is_space c = false) (rev s)) as Hr.
    { apply Forall_forall. intros c Hc.
      apply list_elem_of_In, in_rev, list_elem_of_In in Hc.
      by apply (proj1 (Forall_forall _ _) Hs). }
    destruct (rev s) as [|c r]; [reflexivity|]. simpl.
    inversion Hr as [|? ? Hc _]. by rewrite Hc.
  - destruct s as [|c r]; [reflexivity|]. simpl.
    inversion Hs as [|? ? Hc _]. by rewrite Hc.
Qed.

Lemma parseCookies_sid (sid : jsstring) :
  Forall (fun c => lower_hex c = true) sid ->
  parseCookies (cookie_request sid) = Some {[ js "sid" := sid ]}.
Proof.
  intros Hsid.
  assert (forall c, c ∈ sid -> c <> 37 /\ c <> 59 /\ c <> 61 /\ is_space c = false)
    as Hplain.
  { intros c Hc. apply lower_hex_plain.
    by apply (proj1 (Forall_forall _ _) Hsid). }
  unfold parseCookies, cookie_request. cbn [h_cookie].
  change (truthy (js "sid=" ++ sid)) with true. cbv iota.
  rewrite split_without_separator.
  2:{ intros H. change (js "sid=" ++ sid) with (115 :: 105 :: 100 :: 61 :: sid) in H.
      repeat (apply elem_of_cons in H as [H|H]; [discriminate H|]).
      destruct (Hplain 59 H) as (_ & ? & _). done. }
  cbn [fold_left]. unfold parsePair. cbn [mbind option_bind].
  change (indexOf 61 (js "sid=" ++ sid)) with (Some 3%nat). cbv beta iota.
  change (trim (take 3 (js "sid=" ++ sid))) with (js "sid").
  change (drop 4 (js "sid=" ++ sid)) with sid.
  rewrite (trim_plain sid).
  2:{ apply Forall_forall. intros c Hc. by apply Hplain. }
  rewrite decode_without_percent.
  2:{ intros H. destruct (Hplain 37 H) as (? & _). done. }
  reflexivity.
Qed.

(** X3: the id [createSession] makes from 24 random bytes is 48 lower-case
    hexadecimal digits, and the cookie header [sid=<id>] parses to exactly
    that id. *)
Theorem session_id_round_trip (random : list N) :
  Forall (fun b => b < 256) random ->
  length (toHex random) = (2 * length random)%nat
  /\ Forall (fun c => lower_hex c = true) (toHex random)
  /\ parseCookies (cookie_request (toHex random))
     = Some {[ js "sid" := toHex random ]}.
Proof.
  intros Hbytes. split; [apply toHex_length|].
  split; [by apply toHex_lower|].
  by apply parseCookies_sid, toHex_lower.
Qed.

End Cookies.

Section Sessions.

Lemma persist_run (w : World) :
  exists d', on_disk (saveSessions (sessions w)) w = Returned tt (with_disk d' w)
    /\ node_of PASSWORD_FILE d' = node_of PASSWORD_FILE (disk w)
    /\ (persistable (disk w) ->
        node_of SESSIONS_FILE d' = Regular (Json (stored <$> sessions w))
        /\ persistable d').
Proof.
  unfold on_disk. rewrite saveSessions_result.
  destruct w as [ss env [st [[s a p]|]]]; cbn.
  - destruct s; destruct st; cbn; eexists; (split; [reflexivity|]);
      (split; [reflexivity|]); intros [Hw (c & Hc & Hdir)];
      cbn in *; try discriminate Hw.
    + split; [reflexivity|]. split; [reflexivity|].
      eexists. split; [reflexivity|]. discriminate.
    + inversion Hc; subst c. cbn in Hdir. done.
    + split; [reflexivity|]. split; [reflexivity|].
      eexists. split; [reflexivity|]. discriminate.
  - eexists. split; [reflexivity|]. split; [reflexivity|].
    intros [_ (c & Hc & _)]. discriminate Hc.
Qed.

Lemma saved_password_unique (w : World) (u v : jsvalue) :
  saved_password w u -> saved_password w v -> u = v.
Proof.
  intros [Hu [(p & Hp & ->)|[Hue Huf]]] [Hv [(q & Hq & ->)|[Hve Hvf]]];
    try congruence.
  - rewrite Hp in Hve. cbn in Hu, Hve. congruence.
  - rewrite Hq in Hue. cbn in Hv, Hue. congruence.
Qed.

Lemma saved_password_same (w w' : World) (v : jsvalue) :
  env_ADMIN_PASSWORD w' = env_ADMIN_PASSWORD w ->
  node_of PASSWORD_FILE (disk w') = node_of PASSWORD_FILE (disk w) ->
  saved_password w' v <-> saved_password w v.
Proof. intros He Hn. unfold saved_password. rewrite He, Hn. reflexivity. Qed.


Lemma configured_same (w w' : World) (p : jsstring) :
  env_ADMIN_PASSWORD w' = env_ADMIN_PASSWORD w ->
  node_of PASSWORD_FILE (disk w') = node_of PASSWORD_FILE (disk w) ->
  configured w' p <-> configured w p.
Proof. intros He Hn. unfold configured. rewrite He, Hn. reflexivity. Qed.

Lemma loadAdminPassword_run (w : World) :
  exists v d1,
    on_disk (loadAdminPassword (env_ADMIN_PASSWORD w)) w = Returned v (with_disk d1 w)
    /\ (forall u, (v = u /\ js_truthy u = true) <-> saved_password w u)
    /\ node_of SESSIONS_FILE d1 = node_of SESSIONS_FILE (disk w)
    /\ (persistable (disk w) -> persistable d1)
    /\ (forall u, saved_password (with_disk d1 w) u <-> saved_password w u).
Proof.
  destruct (loadAdminPassword_spec w) as (v & w1 & Hrun & _ & Hv).
  unfold on_disk in *.
  destruct (loadAdminPassword (env_ADMIN_PASSWORD w) (disk w)) as [[v'|] d1] eqn:E;
    [|discriminate Hrun].
  inversion Hrun; subst v' w1; clear Hrun.
  exists v, d1. split; [reflexivity|]. split; [exact Hv|].
  assert (node_of SESSIONS_FILE d1 = node_of SESSIONS_FILE (disk w)
          /\ (persistable (disk w) -> persistable d1)
          /\ (truthy_opt (env_ADMIN_PASSWORD w) = false ->
              forall u, node_of PASSWORD_FILE d1
                        = Regular (Json {| doc_password := u |})
                        <-> node_of PASSWORD_FILE (disk w)
                            = Regular (Json {| doc_password := u |})))
    as (H1 & H2 & H3).
  { revert E. unfold loadAdminPassword.
    destruct (truthy_opt (env_ADMIN_PASSWORD w)).
    - unfold ret. intros E. inversion E; subst.
      split; [reflexivity|]. split; [auto | intros H; discriminate H].
    - destruct (disk w) as [st [[s a p]|]]; [destruct p as [| |[|[q]]]|];
        try destruct st; cbn; intros E; inversion E; subst; clear E;
        (split; [reflexivity|]); split.
      all: try (intros _ p'; cbn; split; intros H;
                first [exact H | discriminate H]).
      all: intros [Hw (c & Hc & Hd)]; cbn in *;
        first [ discriminate Hc
              | discriminate Hw
              | split; [exact Hw|]; inversion Hc; subst c; eexists;
                split; [reflexivity | exact Hd] ]. }
  split; [exact H1|]. split; [exact H2|].
  intros u. unfold saved_password. cbn [env_ADMIN_PASSWORD with_disk disk].
  destruct (truthy_opt (env_ADMIN_PASSWORD w)) eqn:Henv.
  - split; (intros [Hu [He|[Hf _]]]; [|discriminate Hf]); split; auto.
  - specialize (H3 eq_refl u). rewrite H3. reflexivity.
Qed.

Lemma createSession_run (random : list N) (t1 t2 : jsstring) (pw : jsvalue)
    (w : World) :
  exists d',
    createSession random t1 t2 pw w
    = Returned (toHex random)
        (with_disk d'
           (with_sessions
              (<[toHex random := {| password := pw; createdAt := t1;
                                    lastAccessedAt := t2 |}]> (sessions w)) w))
    /\ node_of PASSWORD_FILE d' = node_of PASSWORD_FILE (disk w)
    /\ (persistable (disk w) ->
        node_of SESSIONS_FILE d'
        = Regular (Json (stored <$>
                           <[toHex random := {| password := pw; createdAt := t1;
                                                lastAccessedAt := t2 |}]>
                             (sessions w)))
        /\ persistable d').
Proof.
  unfold createSession. cbv zeta.
  destruct (persist_run
              (with_sessions
                 (<[toHex random := {| password := pw; createdAt := t1;
                                       lastAccessedAt := t2 |}]> (sessions w)) w))
    as (d' & Hrun & Hpw & Hper).
  rewrite Hrun. exists d'. split; [reflexivity|]. split; [exact Hpw|exact Hper].
Qed.

(** X4: [login] never throws; it answers 400 when no password is configured,
    creates the session of the given random bytes when the password of the
    body is the configured one, and answers 401 and leaves the table as it
    was on any other password.  It succeeds exactly when [verify-password]
    does.  Whatever the saved password is, a string or not, the body is
    compared with it by strict equality. *)
Theorem login_decides (random : list N) (t1 t2 : jsstring)
    (pw : jsvalue) (w : World) :
  exists r w', login random t1 t2 pw w = Returned r w'
    /\ (no_password w -> r = SetPasswordFirst /\ sessions w' = sessions w)
    /\ (forall p, configured w p -> pw = JStr p ->
          r = LoggedIn (toHex random)
          /\ sessions w'
             = <[toHex random := {| password := JStr p; createdAt := t1;
                                    lastAccessedAt := t2 |}]> (sessions w))
    /\ (forall p, configured w p -> pw <> JStr p ->
          r = WrongPassword /\ sessions w' = sessions w)
    /\ ((exists w'', verify_password pw w = Returned Verified w'')
        <-> exists sid, r = LoggedIn sid)
    /\ (forall v, saved_password w v ->
          if strict_equal pw v
          then r = LoggedIn (toHex random)
               /\ sessions w'
                  = <[toHex random := {| password := pw; createdAt := t1;
                                         lastAccessedAt := t2 |}]> (sessions w)
          else r = WrongPassword /\ sessions w' = sessions w).
Proof.
  unfold login, verify_password.
  destruct (loadAdminPassword_run w) as (v & d1 & -> & Hv & _). cbn [and_then].
  destruct (js_truthy v) eqn:Htr; cbn [negb].
  - assert (saved_password w v) as Hsaved by (by apply Hv).
    assert (forall p, configured w p -> v = JStr p) as Hconf.
    { intros p Hp. apply configured_saved in Hp.
      by apply (saved_password_unique w). }
    destruct (strict_equal pw v) eqn:Heq; cbn [negb].
    + destruct (createSession_run random t1 t2 pw (with_disk d1 w))
        as (d' & -> & _). cbn [and_then].
      eexists _, _. split; [reflexivity|].
      split; [|split; [|split; [|split]]].
      * intros Hno. by destruct (Hno v).
      * intros q Hq ->. done.
      * intros q Hq Hne. rewrite (Hconf q Hq) in Heq.
        destruct pw; cbn in Heq; try discriminate Heq.
        apply bool_decide_eq_true in Heq. congruence.
      * split; intros _; eauto.
      * intros u Hu. rewrite <- (saved_password_unique w v u Hsaved Hu), Heq. done.
    + eexists _, _. split; [reflexivity|].
      split; [|split; [|split; [|split]]].
      * intros Hno. by destruct (Hno v).
      * intros q Hq Hpw. rewrite (Hconf q Hq), Hpw in Heq. cbn in Heq.
        by rewrite bool_decide_eq_true_2 in Heq.
      * intros q Hq _. done.
      * split; [intros [w'' H]; discriminate H | intros [sid H]; discriminate H].
      * intros u Hu. rewrite <- (saved_password_unique w v u Hsaved Hu), Heq. done.
  - assert (no_password w) as Hno.
    { intros u Hu. apply Hv in Hu as [-> Hu]. congruence. }
    eexists _, _. split; [reflexivity|].
    split; [|split; [|split; [|split]]].
    + done.
    + intros p Hp. apply configured_saved in Hp. by destruct (Hno _ Hp).
    + intros p Hp. apply configured_saved in Hp. by destruct (Hno _ Hp).
    + split; [intros [w'' H]; discriminate H | intros [sid H]; discriminate H].
    + intros u Hu. by destruct (Hno u).
Qed.

Lemma toHex_nonempty (random : list N) : random <> [] -> truthy (toHex random) = true.
Proof. destruct random; [done | reflexivity]. Qed.

Lemma gate_by_cookie (now sid : jsstring) (s : Session) (w : World) :
  Forall (fun c => lower_hex c = true) sid ->
  truthy sid = true ->
  sessions w !! sid = Some s ->
  exists w', requireAuth now (cookie_request sid) w = Next w'.
Proof.
  intros Hhex Htr Hs. unfold requireAuth, getSession.
  rewrite (parseCookies_sid sid Hhex), lookup_singleton_eq, Htr, Hs. cbn [negb].
  destruct (refresh_returns now sid s w) as (w1 & -> & _). cbn [and_then].
  eauto.
Qed.

Lemma gate_by_bearer (now sid : jsstring) (s : Session) (w : World) :
  sessions w !! sid = Some s ->
  exists w', requireAuth now (bearer_request sid) w = Next w'.
Proof.
  intros Hs. unfold requireAuth.
  assert (getSession now (bearer_request sid) w = Returned None w) as ->
    by reflexivity.
  assert (bearer (bearer_request sid) = Some sid) as -> by reflexivity.
  rewrite Hs.
  destruct (refresh_returns now sid s w) as (w1 & -> & _). eauto.
Qed.

(** X5: the id a successful login returns opens the gate, as the [sid]
    cookie and as a bearer token. *)
Theorem login_opens_gate (random : list N) (t1 t2 now p : jsstring) (w : World) :
  Forall (fun b => b < 256) random ->
  random <> [] ->
  configured w p ->
  exists sid w1,
    login random t1 t2 (JStr p) w = Returned (LoggedIn sid) w1
    /\ (exists w2, requireAuth now (cookie_request sid) w1 = Next w2)
    /\ (exists w2, requireAuth now (bearer_request sid) w1 = Next w2)
    /\ (exists w2, session_check now (cookie_request sid) w1 = Returned true w2).
Proof.
  intros Hbytes Hne Hp. unfold login.
  destruct (loadAdminPassword_run w) as (v & d1 & -> & Hv & _). cbn [and_then].
  destruct (proj2 (Hv (JStr p)) (proj1 (configured_saved w p) Hp)) as [-> Hp'].
  rewrite Hp'. cbn [strict_equal]. rewrite bool_decide_eq_true_2 by reflexivity.
  cbn [negb].
  destruct (createSession_run random t1 t2 (JStr p) (with_disk d1 w))
    as (d' & -> & _).
  cbn [and_then]. eexists _, _. split; [reflexivity|].
  assert (sessions (with_disk d'
            (with_sessions
               (<[toHex random := {| password := JStr p; createdAt := t1;
                                     lastAccessedAt := t2 |}]>
                  (sessions (with_disk d1 w))) (with_disk d1 w))) !! toHex random
          = Some {| password := JStr p; createdAt := t1; lastAccessedAt := t2 |}) as Hs.
  { cbn. apply lookup_insert_eq. }
  split; [|split].
  - eapply gate_by_cookie; [by apply toHex_lower | by apply toHex_nonempty | exact Hs].
  - eapply gate_by_bearer, Hs.
  - unfold session_check, getSession.
    rewrite (parseCookies_sid _ (toHex_lower random Hbytes)), lookup_singleton_eq.
    rewrite (toHex_nonempty random Hne), Hs. cbn [negb].
    destruct (refresh_returns now (toHex random)
                {| password := JStr p; createdAt := t1; lastAccessedAt := t2 |}
                (with_disk d'
                   (with_sessions
                      (<[toHex random := {| password := JStr p; createdAt := t1;
                                            lastAccessedAt := t2 |}]>
                         (sessions (with_disk d1 w))) (with_disk d1 w))))
      as (w2 & -> & _).
    cbn [and_then]. eexists. rewrite bool_decide_eq_true_2; [reflexivity|eauto].
Qed.

(** X6: after a logout the request is no longer a session, whatever it was
    before; the only record that can go is the one of the [sid] cookie, and
    every other record stays as it was. *)
Theorem logout_forgets (now : jsstring) (req : Request) (w w' : World) :
  logout req w = Returned tt w' ->
  session_check now req w' = Returned false w'
  /\ (forall id s, sessions w' !! id = Some s -> sessions w !! id = Some s)
  /\ (forall id cookies, parseCookies req = Some cookies ->
        cookies !! js "sid" <> Some id ->
        sessions w' !! id = sessions w !! id)
  /\ env_ADMIN_PASSWORD w' = env_ADMIN_PASSWORD w.
Proof.
  unfold logout, destroySession, session_check, getSession. cbv zeta.
  destruct (parseCookies req) as [cookies|]; [|discriminate].
  destruct (cookies !! js "sid") as [sid|] eqn:Hsid.
  2:{ cbn. intros H. inversion H; subst w'. repeat split; auto. }
  destruct (truthy sid) eqn:Htr; cbn [andb negb].
  2:{ cbn. intros H. inversion H; subst w'. repeat split; auto. }
  case_bool_decide as Hin.
  - destruct (persist_run (with_sessions (delete sid (sessions w)) w))
      as (d' & Hrun & _).
    rewrite Hrun. cbn [and_then].
    intros H. inversion H; subst w'; clear H. cbn [sessions with_disk with_sessions].
    rewrite lookup_delete_eq. split; [reflexivity|]. split; [|split].
    + intros id s Hs. apply lookup_delete_Some in Hs as [_ Hs]. exact Hs.
    + intros id c Hc Hid. inversion Hc; subst c.
      apply lookup_delete_ne. congruence.
    + reflexivity.
  - cbn. intros H. inversion H; subst w'.
    assert (sessions w !! sid = None) as ->.
    { destruct (sessions w !! sid) eqn:E; [|reflexivity].
      exfalso. apply Hin. eauto. }
    repeat split; auto.
Qed.

Lemma touch_keeps (now sid id : jsstring) (s : Session)
    (m : gmap jsstring Session) :
  m !! sid = Some s ->
  password <$> (<[sid := touch now s]> m) !! id = password <$> m !! id
  /\ createdAt <$> (<[sid := touch now s]> m) !! id = createdAt <$> m !! id.
Proof.
  intros Hs. destruct (decide (sid = id)) as [<-|Hne].
  - rewrite lookup_insert_eq, Hs. split; reflexivity.
  - rewrite lookup_insert_ne by exact Hne. split; reflexivity.
Qed.

Lemma refresh_keeps (now sid : jsstring) (s : Session) (w : World) :
  sessions w !! sid = Some s ->
  exists w1, refresh now sid s w = Returned tt w1
    /\ env_ADMIN_PASSWORD w1 = env_ADMIN_PASSWORD w
    /\ forall id,
         password <$> sessions w1 !! id = password <$> sessions w !! id
         /\ createdAt <$> sessions w1 !! id = createdAt <$> sessions w !! id.
Proof.
  intros Hs. destruct (refresh_returns now sid s w) as (w1 & H1 & H2 & H3).
  exists w1. split; [exact H1|]. split; [exact H3|].
  intros id. rewrite H2. by apply touch_keeps.
Qed.

Lemma legacy_header_keeps (req : Request) (w : World) :
  sessions (gate_world (legacy_header req w)) = sessions w
  /\ env_ADMIN_PASSWORD (gate_world (legacy_header req w)) = env_ADMIN_PASSWORD w.
Proof.
  unfold legacy_header.
  destruct (loadAdminPassword_run w) as (v & d1 & -> & _).
  destruct (negb (js_truthy v)); [split; reflexivity|].
  destruct (strict_equal _ v); split; reflexivity.
Qed.

(** X7: the gate never adds, removes or replaces a session and never touches
    the password of one: whatever the request and however the gate ends, the
    table has the same ids with the same passwords and creation times, and
    the environment is as it was. *)
Theorem gate_keeps_sessions (now : jsstring) (req : Request) (w : World) :
  let w' := gate_world (requireAuth now req w) in
  env_ADMIN_PASSWORD w' = env_ADMIN_PASSWORD w
  /\ forall id,
       password <$> sessions w' !! id = password <$> sessions w !! id
       /\ createdAt <$> sessions w' !! id = createdAt <$> sessions w !! id.
Proof.
  assert (forall g, sessions (gate_world g) = sessions w ->
            env_ADMIN_PASSWORD (gate_world g) = env_ADMIN_PASSWORD w ->
            env_ADMIN_PASSWORD (gate_world g) = env_ADMIN_PASSWORD w
            /\ forall id,
                 password <$> sessions (gate_world g) !! id
                 = password <$> sessions w !! id
                 /\ createdAt <$> sessions (gate_world g) !! id
                    = createdAt <$> sessions w !! id) as Hsame.
  { intros g Hs He. split; [exact He|]. intros id. rewrite Hs. split; reflexivity. }
  assert (let rest :=
            match bearer req with
            | Some sessionId =>
                match sessions w !! sessionId with
                | Some session =>
                    match refresh now sessionId session w with
                    | Returned _ w2 => Next w2
                    | Thrown w2 => Uncaught w2
                    end
                | None => legacy_header req w
                end
            | None => legacy_header req w
            end in
          env_ADMIN_PASSWORD (gate_world rest) = env_ADMIN_PASSWORD w
          /\ forall id,
               password <$> sessions (gate_world rest) !! id
               = password <$> sessions w !! id
               /\ createdAt <$> sessions (gate_world rest) !! id
                  = createdAt <$> sessions w !! id) as Hrest.
  { cbv zeta. destruct (bearer req) as [id|].
    - destruct (sessions w !! id) as [s|] eqn:Hs.
      + destruct (refresh_keeps now id s w Hs) as (w1 & -> & He & Hf).
        split; [exact He | exact Hf].
      + apply Hsame; apply legacy_header_keeps.
    - apply Hsame; apply legacy_header_keeps. }
  cbv zeta. unfold requireAuth, getSession.
  destruct (parseCookies req) as [cookies|]; [|by apply Hsame].
  destruct (cookies !! js "sid") as [sid|]; [|exact Hrest].
  destruct (negb (truthy sid)); [exact Hrest|].
  destruct (sessions w !! sid) as [s|] eqn:Hs; [|exact Hrest].
  destruct (refresh_keeps now sid s w Hs) as (w1 & -> & He & Hf).
  cbn [and_then gate_world]. split; [exact He | exact Hf].
Qed.

(** X8: on a disk where [sessions.json] can be written, a session that was
    created is still there after a restart of the process: the table loaded
    from the file is the table the process had, as its JSON text keeps it,
    which is the same table when the passwords of the sessions are strings,
    and the gate lets the cookie of the session through. *)
Theorem session_survives_restart (random : list N) (t1 t2 : jsstring)
    (pw : jsvalue) (now : jsstring) (w w' : World) (sid : jsstring) :
  persistable (disk w) ->
  createSession random t1 t2 pw w = Returned sid w' ->
  sessions (restart w') = stored <$> sessions w'
  /\ ((forall id s, sessions w' !! id = Some s -> exists p, password s = JStr p) ->
      sessions (restart w') = sessions w')
  /\ sessions (restart w') !! sid
     = Some {| password := JSON_image pw; createdAt := t1; lastAccessedAt := t2 |}
  /\ (Forall (fun b => b < 256) random -> random <> [] ->
      exists w2, requireAuth now (cookie_request sid) (restart w') = Next w2).
Proof.
  intros Hper Hcreate.
  destruct (createSession_run random t1 t2 pw w) as (d' & Hrun & _ & Hsync).
  rewrite Hrun in Hcreate. inversion Hcreate; subst sid w'; clear Hcreate.
  destruct (Hsync Hper) as [Hfile _].
  unfold restart. erewrite loadSessions_from_file by exact Hfile.
  cbn [sessions with_sessions with_disk]. unfold Object_assign.
  rewrite (right_id_L ∅ (∪)).
  assert ((stored <$> <[toHex random := {| password := pw; createdAt := t1;
                                           lastAccessedAt := t2 |}]> (sessions w))
            !! toHex random
          = Some {| password := JSON_image pw; createdAt := t1;
                    lastAccessedAt := t2 |}) as Hsid.
  { rewrite lookup_fmap, lookup_insert_eq. reflexivity. }
  split; [reflexivity|]. split; [|split; [exact Hsid|]].
  - intros Hstr. apply stored_table_stable.
    intros id s Hs. destruct (Hstr id s Hs) as [p Hp]. unfold JSON_stable.
    by rewrite Hp.
  - intros Hbytes Hne.
    eapply gate_by_cookie; [by apply toHex_lower | by apply toHex_nonempty|].
    cbn [sessions with_sessions]. exact Hsid.
Qed.




End Sessions.

Section Upstream.

Local Open Scope float_scope.

Lemma queryZeabur_fulfilled (token : jsvalue) (r : NetReply (option jsvalue))
    (v : jsvalue) :
  queryZeabur token r = Fulfilled v <-> sendable token = true /\ r = NetBody (Some v).
Proof.
  unfold queryZeabur. destruct (sendable token); cbn [negb].
  - split.
    + destruct r as [m| |[b|]]; intros H; try discriminate H. by inversion H.
    + intros [_ ->]. reflexivity.
  - split; [discriminate | intros [H _]; discriminate H].
Qed.

Lemma or_else_truthy (v d : jsvalue) :
  js_truthy d = true -> js_truthy (or_else v d) = true.
Proof. intros Hd. unfold or_else. by destruct (js_truthy v) eqn:E. Qed.

Lemma getprop_truthy (k : jsstring) (v : jsvalue) :
  js_truthy v = true -> is_Some (getprop k v).
Proof. destruct v; cbn; try discriminate; eauto. Qed.

Lemma getprop_is_Some (k : jsstring) (v : jsvalue) :
  is_Some (getprop k v) <-> v <> JNull /\ v <> JUndefined.
Proof.
  destruct v; cbn; split; try (intros [? H]; discriminate H);
    try (intros [H1 H2]; done); try (intros _; split; discriminate); eauto.
Qed.

(** The project list can be read exactly when [edges] is missing, [null] or
    an array without [null]. *)
Lemma nodes_listable (edges : jsvalue) : is_Some (nodes edges) <-> listable edges.
Proof.
  unfold listable. destruct edges as [| |b|x|s|es|props]; cbn [nodes].
  - split; [by left | eauto].
  - split; [by right; left | eauto].
  - split; [intros [? H]; discriminate H |].
    intros [H|[H|(es & H & _)]]; discriminate H.
  - split; [intros [? H]; discriminate H |].
    intros [H|[H|(es & H & _)]]; discriminate H.
  - split; [intros [? H]; discriminate H |].
    intros [H|[H|(es & H & _)]]; discriminate H.
  - rewrite mapM_is_Some. split.
    + intros H. right. right. exists es. split; [reflexivity|].
      eapply Forall_impl; [exact H|]. intros e He.
      exact (proj1 (getprop_is_Some _ e) He).
    + intros [H|[H|(es' & H & Hall)]]; try discriminate H.
      inversion H; subst es'. eapply Forall_impl; [exact Hall|].
      intros e He. exact (proj2 (getprop_is_Some _ e) He).
  - split; [intros [? H]; discriminate H |].
    intros [H|[H|(es & H & _)]]; discriminate H.
Qed.

Lemma fetchAccountData_inv (token : jsvalue) (up : Upstream) (d : AccountData) :
  fetchAccountData token up = Fulfilled d ->
  exists u p a c projects,
    sendable token = true
    /\ user_reply up = NetBody (Some u) /\ projects_reply up = NetBody (Some p)
    /\ aihub_reply up = NetBody (Some a) /\ costs_reply up = NetBody (Some c)
    /\ nodes (chain (js "edges") (chain (js "projects") (chain (js "data") p)))
       = Some projects
    /\ d = {| user := or_else (chain (js "me") (chain (js "data") u)) (JObj []);
              projects := projects;
              aihub := or_else (chain (js "aihubTenant") (chain (js "data") a))
                         (JObj []);
              serviceCosts :=
                or_else (chain (js "serviceCostsThisMonth")
                           (chain (js "me") (chain (js "data") c))) (JNum 0) |}.
Proof.
  unfold fetchAccountData.
  destruct (Promise_all _ _) as [vs|e] eqn:E; [|discriminate].
  unfold Promise_all in E.
  destruct (in_input_order _) as [vs'|e'] eqn:E'; [|discriminate E].
  inversion E; subst vs'; clear E.
  apply in_input_order_inl in E'.
  destruct vs as [|u [|p [|a [|c [|? ?]]]]]; try discriminate E'.
  rewrite !fmap_cons in E'. inversion E' as [[Hu Hp Ha Hc]]. clear E'.
  apply queryZeabur_fulfilled in Hu as [Hs Hu].
  apply queryZeabur_fulfilled in Hp as [_ Hp].
  apply queryZeabur_fulfilled in Ha as [_ Ha].
  apply queryZeabur_fulfilled in Hc as [_ Hc].
  cbn [lookup list_lookup default].
  change (default JUndefined ([u; p; a; c] !! 0%nat)) with u.
  change (default JUndefined ([u; p; a; c] !! 1%nat)) with p.
  change (default JUndefined ([u; p; a; c] !! 2%nat)) with a.
  change (default JUndefined ([u; p; a; c] !! 3%nat)) with c.
  destruct (nodes _) as [projects|] eqn:En; [|discriminate].
  intros H. inversion H; subst d. exists u, p, a, c, projects. done.
Qed.

(** X11: what [fetchAccountData] resolves with is safe to read: the user and
    the tenant are never [null] or [undefined], so reading a property of
    them cannot throw, and the month's cost is a truthy value or the number
    0.  It resolves exactly when the token can be sent, the four requests
    return JSON, and [data.projects.edges] of the second one is missing,
    [null], or an array without [null]. *)
Theorem fetchAccountData_normalises (token : jsvalue) (up : Upstream) :
  (forall d, fetchAccountData token up = Fulfilled d ->
     js_truthy (user d) = true /\ js_truthy (aihub d) = true
     /\ (forall k, is_Some (getprop k (user d)))
     /\ (forall k, is_Some (getprop k (aihub d)))
     /\ (js_truthy (serviceCosts d) = true \/ serviceCosts d = JNum 0))
  /\ ((exists d, fetchAccountData token up = Fulfilled d) <->
      sendable token = true
      /\ exists u p a c,
           user_reply up = NetBody (Some u) /\ projects_reply up = NetBody (Some p)
           /\ aihub_reply up = NetBody (Some a) /\ costs_reply up = NetBody (Some c)
           /\ listable (chain (js "edges") (chain (js "projects")
                                              (chain (js "data") p)))).
Proof.
  split.
  - intros d Hd.
    destruct (fetchAccountData_inv token up d Hd)
      as (u & p & a & c & pr & _ & _ & _ & _ & _ & _ & ->).
    cbn [user aihub serviceCosts].
    assert (forall v, js_truthy (or_else v (JObj [])) = true) as Hobj.
    { intros v. by apply or_else_truthy. }
    split; [apply Hobj|]. split; [apply Hobj|].
    split; [intros k; apply getprop_truthy, Hobj|].
    split; [intros k; apply getprop_truthy, Hobj|].
    unfold or_else. destruct (js_truthy (chain _ _)) eqn:E; [by left | by right].
  - split.
    + intros [d Hd].
      destruct (fetchAccountData_inv token up d Hd)
        as (u & p & a & c & pr & Hs & Hu & Hp & Ha & Hc & Hn & _).
      split; [exact Hs|]. exists u, p, a, c.
      repeat (split; [assumption|]). apply nodes_listable. by rewrite Hn.
    + intros (Hs & u & p & a & c & Hu & Hp & Ha & Hc & Hl).
      apply nodes_listable in Hl as [pr Hn].
      unfold fetchAccountData, Promise_all, queryZeabur.
      rewrite Hs, Hu, Hp, Ha, Hc.
      cbn [negb in_input_order].
      change (default JUndefined ([u; p; a; c] !! 1%nat)) with p.
      rewrite Hn. eauto.
Qed.

(** X12: an identity query that returns no user does not fail the account.
    For an account whose name can be written to the log, when
    [fetchAccountData] resolves, [data.me] of the identity answer is missing
    or falsy, as in the answer to a token the platform does not accept, and
    the month's cost can be written to the log, the batch reports the account
    as a success with no user field, a credit of 500 and no usage, while
    [validate-account] refuses the same token. *)
Theorem missing_user_is_reported_as_success (account name : jsvalue)
    (up : Upstream) (d : AccountData) (body : jsvalue) :
  getprop (js "name") account = Some name ->
  printable name = true ->
  fetchAccountData (chain (js "token") account) up = Fulfilled d ->
  user_reply up = NetBody (Some body) ->
  js_truthy (chain (js "me") (chain (js "data") body)) = false ->
  printable (serviceCosts d) = true ->
  account_task account up
  = Fulfilled (Success name
                 [(js "credit", JNum 500); (js "totalUsage", JNum 0);
                  (js "totalCost", JNum 0); (js "freeQuotaLimit", JNum 5)]
                 (aihub d))
  /\ (forall n, js_truthy n = true ->
        js_truthy (chain (js "token") account) = true ->
        validate_account n (chain (js "token") account) up = TokenInvalid).
Proof.
  intros Hname Hpn Hd Hbody Hme Hprint.
  destruct (fetchAccountData_inv _ up d Hd)
    as (u & p & a & c & pr & _ & Hu & _ & _ & _ & _ & Heq).
  rewrite Hbody in Hu. inversion Hu; subst u; clear Hu.
  assert (user d = JObj []) as Huser.
  { rewrite Heq. cbn [user]. unfold or_else. by rewrite Hme. }
  split.
  - unfold account_task, account_pipeline, usage_of.
    rewrite Hname, Hpn. cbn [negb]. cbv zeta. rewrite Hd, Huser, Hprint.
    reflexivity.
  - intros n Hn Ht. unfold validate_account.
    rewrite Hn, Ht, Hd, Huser. reflexivity.
Qed.

(** X13: a usage query that fails is reported exactly like a report without
    usage: the record of the account is the same as if the platform had
    answered the query with no data. *)
Theorem usage_failure_looks_like_no_usage (account : jsvalue) (up : Upstream)
    (e : Error) :
  fetchUsageData (chain (js "token") account) (usage_reply up) = Rejected e ->
  account_task account up
  = account_task account (with_usage (NetBody NoUsages) up).
Proof.
  intros He. unfold account_task, account_pipeline.
  destruct (getprop (js "name") account) as [n|]; [|reflexivity].
  destruct (printable n); cbn [negb]; [|reflexivity]. cbv zeta.
  change (fetchAccountData (chain (js "token") account)
            (with_usage (NetBody NoUsages) up))
    with (fetchAccountData (chain (js "token") account) up).
  destruct (fetchAccountData _ up) as [d|e'] eqn:Hd; [|reflexivity].
  destruct (printable _ && printable _); [|reflexivity].
  unfold usage_of. rewrite He. cbn [usage_reply with_usage].
  destruct (fetchAccountData_inv _ up d Hd) as (_ & _ & _ & _ & _ & Hs & _).
  unfold fetchUsageData. rewrite Hs. cbn [negb].
  destruct (js_truthy _); reflexivity.
Qed.

End Upstream.

Section Catalog.

Lemma split_at_separator (sep : N) (s r : jsstring) :
  sep ∉ s -> split sep (s ++ sep :: r) = s :: split sep r.
Proof.
  induction s as [|c s IH]; intros Hs.
  - cbn [app split]. by rewrite N.eqb_refl.
  - apply not_elem_of_cons in Hs as [Hc Hs]. cbn [app split].
    destruct (N.eqb_spec c sep) as [->|_]; [done|].
    by rewrite (IH Hs).
Qed.

Lemma env_item_plain (a : Account) :
  plain_field (name a) -> plain_field (token a) ->
  env_item (name a ++ 58 :: token a) = Some a.
Proof.
  intros (_ & _ & Hn & Htn) (_ & _ & Ht & Htt). unfold env_item.
  rewrite (split_at_separator 58 _ _ Hn), (split_without_separator 58 _ Ht).
  rewrite Htn, Htt. by destruct a.
Qed.

Lemma split_env_format (l : list Account) :
  l <> [] ->
  (forall a, a ∈ l -> plain_field (name a) /\ plain_field (token a)) ->
  split 44 (env_format l) = (fun a => name a ++ 58 :: token a) <$> l.
Proof.
  intros Hne Hl. induction l as [|a l IH]; [done|].
  assert (44 ∉ name a ++ 58 :: token a) as Ha.
  { destruct (Hl a) as [(_ & Hn & _) (_ & Ht & _)]; [left|].
    intros H. apply elem_of_app in H as [H|H]; [done|].
    apply elem_of_cons in H as [H|H]; [discriminate H | done]. }
  destruct l as [|b l].
  - cbn [env_format fmap list_fmap]. by apply split_without_separator.
  - change (env_format (a :: b :: l))
      with (name a ++ 58 :: token a ++ 44 :: env_format (b :: l)).
    replace (name a ++ 58 :: token a ++ 44 :: env_format (b :: l))
      with ((name a ++ 58 :: token a) ++ 44 :: env_format (b :: l))
      by (by rewrite <- app_assoc).
    rewrite (split_at_separator 44 _ _ Ha), fmap_cons. f_equal.
    apply IH; [done|]. intros c Hc. apply Hl. by right.
Qed.

Lemma mapM_env_items (l : list Account) :
  (forall a, a ∈ l -> plain_field (name a) /\ plain_field (token a)) ->
  mapM env_item ((fun a => name a ++ 58 :: token a) <$> l) = Some l.
Proof.
  induction l as [|a l IH]; intros Hl; [reflexivity|].
  rewrite fmap_cons. cbn [mapM].
  destruct (Hl a) as [Hn Ht]; [left|].
  rewrite (env_item_plain a Hn Ht). cbn.
  rewrite IH; [reflexivity|]. intros c Hc. apply Hl. by right.
Qed.

Lemma filter_all (l : list Account) :
  (forall a, a ∈ l -> plain_field (name a) /\ plain_field (token a)) ->
  List.filter (fun acc => truthy (name acc) && truthy (token acc)) l = l.
Proof.
  induction l as [|a l IH]; intros Hl; [reflexivity|]. cbn [List.filter].
  destruct (Hl a) as [(Hn & _) (Ht & _)]; [left|].
  rewrite (proj2 (truthy_nonempty _) Hn), (proj2 (truthy_nonempty _) Ht).
  cbn [andb]. f_equal. apply IH. intros c Hc. apply Hl. by right.
Qed.

(** X15: [getEnvAccounts] reads back the documented format.  For accounts
    whose names and tokens are not empty, have no comma and no colon and no
    white space at their ends, the accounts read from
    [name1:token1,name2:token2] are the accounts that were written, in
    order. *)
Theorem getEnvAccounts_round_trip (l : list Account) :
  (forall a, a ∈ l -> plain_field (name a) /\ plain_field (token a)) ->
  getEnvAccounts (Some (env_format l)) = l.
Proof.
  intros Hl. unfold getEnvAccounts.
  destruct l as [|a l]; [reflexivity|].
  assert (truthy (env_format (a :: l)) = true) as ->.
  { destruct (Hl a) as [(Hn & _) _]; [left|].
    destruct (name a) as [|c n] eqn:E; [done|].
    destruct l; cbn [env_format]; rewrite E; reflexivity. }
  cbn [negb]. rewrite (split_env_format (a :: l)) by done.
  rewrite (mapM_env_items _ Hl). by apply filter_all.
Qed.

Lemma mapM_none (items : list jsstring) (item : jsstring) :
  item ∈ items -> env_item item = None -> mapM env_item items = None.
Proof.
  intros Hin Hnone. induction items as [|x items IH]; [by apply not_elem_of_nil in Hin|].
  cbn [mapM]. apply elem_of_cons in Hin as [<-|Hin].
  - rewrite Hnone. reflexivity.
  - rewrite (IH Hin). by destruct (env_item x).
Qed.

(** X16: one item of [ACCOUNTS] without a colon empties the whole list:
    [token.trim()] throws on it and the [catch] returns no account at all,
    the well-formed ones included.  A trailing comma is such an item. *)
Theorem getEnvAccounts_drops_all (e item : jsstring) :
  item ∈ split 44 e ->
  58 ∉ item ->
  getEnvAccounts (Some e) = [].
Proof.
  intros Hin Hcolon. unfold getEnvAccounts.
  destruct (negb (truthy e)); [reflexivity|].
  rewrite (mapM_none _ item Hin); [reflexivity|].
  unfold env_item. by rewrite (split_without_separator 58 item Hcolon).
Qed.

Lemma js_String (c : ascii) (s : string) :
  js (String c s) = N_of_ascii c :: js s.
Proof. reflexivity. Qed.

Lemma digits_uint (u : Decimal.uint) (acc : nat) :
  digits_prefix 10 (Some (Z.of_nat acc)) (js (NilEmpty.string_of_uint u))
  = Some (Z.of_nat (Nat.of_uint_acc u acc)).
Proof.
  revert acc. induction u as [|u IH|u IH|u IH|u IH|u IH|u IH|u IH|u IH|u IH|u IH];
    intros acc; [reflexivity|..];
    cbn [NilEmpty.string_of_uint Nat.of_uint_acc]; rewrite js_String;
    cbn [digits_prefix]; rewrite Nat.tail_mul_spec;
    (match goal with
     | |- match digit_in 10 ?c with _ => _ end = _ =>
         let d := eval vm_compute in (digit_in 10 c) in
         change (digit_in 10 c) with d
     end);
    cbv beta iota; change (default 0%Z (Some (Z.of_nat acc))) with (Z.of_nat acc);
    rewrite <- IH; f_equal; f_equal; lia.
Qed.

Lemma uint_digits (u : Decimal.uint) :
  Forall (fun c => (48 <=? c) && (c <=? 57) = true) (js (NilEmpty.string_of_uint u)).
Proof.
  induction u; cbn [NilEmpty.string_of_uint]; [exact (List.Forall_nil _)|..];
    rewrite js_String; (constructor; [reflexivity | assumption]).
Qed.

Lemma parseInt_digits (c : N) (r : jsstring) :
  (48 <=? c) && (c <=? 57) = true ->
  Forall (fun c => (48 <=? c) && (c <=? 57) = true) r ->
  parseInt (c :: r) = digits_prefix 10 (Some 0%Z) (c :: r).
Proof.
  intros Hc Hr.
  apply andb_true_iff in Hc as [Hc1 Hc2].
  apply N.leb_le in Hc1. apply N.leb_le in Hc2.
  assert (is_space c = false) as Hsp.
  { unfold is_space.
    repeat match goal with
           | |- context [?a <=? ?b] => destruct (N.leb_spec a b); try lia
           | |- context [?a =? ?b] => destruct (N.eqb_spec a b); try lia
           end; reflexivity. }
  assert (exists d, digit_in 10 c = Some d) as [d Hd].
  { unfold digit_in.
    destruct (N.leb_spec 48 c); [|lia]. destruct (N.leb_spec c 57); [|lia].
    cbn [andb]. destruct (Z.ltb_spec (Z.of_N c - 48) 10); [eauto | lia]. }
  unfold parseInt. cbn [trimStart]. rewrite Hsp.
  destruct (N.eqb_spec c 45) as [->|_]; [lia|].
  destruct (N.eqb_spec c 43) as [->|_]; [lia|].
  cbn [fst snd].
  assert ((match c :: r with
           | z :: x :: r0 => if (z =? 48) && ((x =? 120) || (x =? 88))
                             then (16%Z, r0) else (10%Z, c :: r)
           | _ => (10%Z, c :: r)
           end) = (10%Z, c :: r)) as ->.
  { destruct r as [|x r]; [reflexivity|].
    inversion Hr as [|? ? Hx _]. apply andb_true_iff in Hx as [Hx1 Hx2].
    apply N.leb_le in Hx1. apply N.leb_le in Hx2.
    destruct (N.eqb_spec x 120); [lia|]. destruct (N.eqb_spec x 88); [lia|].
    by rewrite andb_false_r. }
  cbn [fst snd digits_prefix]. rewrite Hd. cbn [default].
  destruct (digits_prefix 10 _ r); reflexivity.
Qed.

Lemma parseInt_index_key (i : nat) : parseInt (index_key i) = Some (Z.of_nat i).
Proof.
  unfold index_key, NilZero.string_of_uint.
  pose proof (DecimalNat.Unsigned.of_to i) as Hi. unfold Nat.of_uint in Hi.
  pose proof (digits_uint (Nat.to_uint i) 0) as Hval. rewrite Hi in Hval.
  pose proof (uint_digits (Nat.to_uint i)) as Hdig. clear Hi.
  destruct (Nat.to_uint i) as [|u|u|u|u|u|u|u|u|u|u].
  1:{ assert (i = 0)%nat as -> by (cbn in Hval; inversion Hval; lia).
      reflexivity. }
  all: cbn [NilEmpty.string_of_uint] in *; rewrite js_String in *;
    apply Forall_cons in Hdig as [Hc Hr];
    rewrite (parseInt_digits _ _ Hc Hr); exact Hval.
Qed.

Lemma loadServerAccounts_run (d : Disk) :
  exists l d1, loadServerAccounts d = (Some l, d1)
    /\ writable d1 = writable d
    /\ loadServerAccounts d1 = (Some l, d1).
Proof.
  destruct d as [st [[s a p]|]]; [destruct a as [| |[|l]]|];
    destruct st; cbn; eauto 10.
Qed.

Lemma saveServerAccounts_writable (accounts : list jsvalue) (d : Disk) :
  writable d = true ->
  exists d', saveServerAccounts accounts d = (Some true, d')
    /\ loadServerAccounts d' = (Some (JSON_element <$> accounts), d').
Proof.
  intros Hw. unfold saveServerAccounts.
  destruct (saveDocument_accounts (JSON_element <$> accounts) d Hw)
    as (d' & Hsave & Hnode & _).
  exists d'. split; [exact Hsave|]. by apply load_after_save_accounts.
Qed.

Lemma index_in_range (i n : nat) :
  (0 <=? Z.of_nat i)%Z && (Z.of_nat i <? Z.of_nat n)%Z = bool_decide (i < n)%nat.
Proof.
  case_bool_decide as H.
  - apply andb_true_iff. split; [apply Z.leb_le | apply Z.ltb_lt]; lia.
  - apply andb_false_iff. right. apply Z.ltb_ge. lia.
Qed.

Lemma account_value_delete (i : nat) (l : list Account) :
  JSON_element <$> delete i (account_value <$> l) = account_value <$> delete i l.
Proof.
  revert i. induction l as [|a l IH]; intros i; [reflexivity|].
  destruct i as [|i]; cbn.
  - apply account_values_stable.
  - f_equal. apply IH.
Qed.

(** X17: [DELETE /api/server-accounts/<i>] with the index in decimal, on a
    disk that can be written.  When the entry at that index has a name that
    the log line can format, as every account with a string for a name has,
    the handler removes exactly that entry, keeps the others in order and
    answers success.  When the entry is [null] the list without it is saved
    all the same, but the log line throws on [removed[0].name] and no answer
    is sent.  An index past the end, or a parameter that is no number,
    answers 404 and leaves the stored list as it was. *)
Theorem delete_stored_account (i : nat) (d d1 : Disk) (accounts : list jsvalue) :
  writable d = true ->
  loadServerAccounts d = (Some accounts, d1) ->
  (forall account name,
     accounts !! i = Some account ->
     getprop (js "name") account = Some name ->
     printable name = true ->
     exists d', server_accounts_delete (index_key i) d = (Some Done, d')
       /\ loadServerAccounts d'
          = (Some (JSON_element <$> delete i accounts), d'))
  /\ (forall l : list Account,
        accounts = account_value <$> l ->
        (i < length l)%nat ->
        exists d', server_accounts_delete (index_key i) d = (Some Done, d')
          /\ loadServerAccounts d' = (Some (account_value <$> delete i l), d'))
  /\ (accounts !! i = Some JNull ->
      exists d', server_accounts_delete (index_key i) d = (None, d')
        /\ loadServerAccounts d'
           = (Some (JSON_element <$> delete i accounts), d'))
  /\ ((length accounts <= i)%nat ->
      server_accounts_delete (index_key i) d = (Some NotFound, d1)
      /\ loadServerAccounts d1 = (Some accounts, d1))
  /\ (forall param, parseInt param = None ->
        server_accounts_delete param d = (Some NotFound, d1)).
Proof.
  intros Hw Hload.
  destruct (loadServerAccounts_run d) as (l0 & d1' & Hl & Hw1 & Hidem).
  rewrite Hload in Hl. inversion Hl; subst l0 d1'; clear Hl.
  assert (forall account,
            accounts !! i = Some account ->
            exists d',
              server_accounts_delete (index_key i) d
              = match getprop (js "name") account with
                | Some name => if printable name then (Some Done, d') else (None, d')
                | None => (None, d')
                end
              /\ loadServerAccounts d'
                 = (Some (JSON_element <$> delete i accounts), d')) as Hin.
  { intros account Hacc.
    destruct (saveServerAccounts_writable (delete i accounts) d1) as (d' & Hsave & Hl);
      [congruence|].
    exists d'. split; [|exact Hl].
    unfold server_accounts_delete, bind. rewrite parseInt_index_key, Hload.
    rewrite index_in_range, Nat2Z.id.
    rewrite bool_decide_eq_true_2 by (by eapply lookup_lt_Some).
    cbv zeta. rewrite Hsave, Hacc. cbn [mbind option_bind].
    destruct (getprop (js "name") account) as [name|]; [|reflexivity].
    by destruct (printable name). }
  split; [|split; [|split; [|split]]].
  - intros account name Hacc Hname Hp.
    destruct (Hin account Hacc) as (d' & Hrun & Hl).
    rewrite Hname, Hp in Hrun. eauto.
  - intros l -> Hi.
    destruct (lookup_lt_is_Some_2 l i Hi) as [a Ha].
    destruct (Hin (account_value a)) as (d' & Hrun & Hl).
    { by rewrite list_lookup_fmap, Ha. }
    exists d'. split; [exact Hrun|]. by rewrite <- account_value_delete.
  - intros Hacc. destruct (Hin JNull Hacc) as (d' & Hrun & Hl).
    cbn [getprop] in Hrun. eauto.
  - intros Hi. unfold server_accounts_delete, bind.
    rewrite parseInt_index_key, Hload, index_in_range.
    rewrite bool_decide_eq_false_2 by lia.
    split; [reflexivity | exact Hidem].
  - intros param Hp. unfold server_accounts_delete, bind.
    by rewrite Hp, Hload.
Qed.

(** X18: the accounts a client posts are the accounts [GET
    /api/server-accounts] lists, after the accounts of the environment, on a
    writable disk: the list of the body as a JSON text keeps it, which for a
    list of accounts with a name and a token is the list itself. *)
Theorem posted_accounts_are_listed (l : list jsvalue)
    (accountsEnv : option jsstring) (d : Disk) :
  writable d = true ->
  exists d', server_accounts_post (JArr l) d = (Some Done, d')
    /\ server_accounts_get accountsEnv d'
       = (Some ((account_value <$> getEnvAccounts accountsEnv)
                ++ (JSON_element <$> l)), d')
    /\ (forall accounts : list Account,
          l = account_value <$> accounts ->
          server_accounts_get accountsEnv d'
          = (Some (account_value <$> (getEnvAccounts accountsEnv ++ accounts)),
             d')).
Proof.
  intros Hw. destruct (saveServerAccounts_writable l d Hw) as (d' & Hsave & Hl).
  exists d'. unfold server_accounts_post, server_accounts_get, bind.
  rewrite Hsave, Hl. split; [reflexivity|]. split; [reflexivity|].
  intros accounts ->. by rewrite account_values_stable, fmap_app.
Qed.

End Catalog.

Section Report.

Lemma costs_fold_inv (l : list UsageItem) (acc : gmap jsstring float * float)
    (k : jsstring) (v : float) :
  fst (fold_left accumulate l acc) !! k = Some v ->
  fst acc !! k = Some v
  \/ (k <> js "__proto__"
      /\ exists p, p ∈ l /\ project_id p = k
                   /\ v = displayCost (projectTotal p)).
Proof.
  revert acc. induction l as [|p l IH]; intros acc; cbn [fold_left]; [by left|].
  intros H. apply IH in H as [H|(Hk & q & Hq & Hid & Hv)].
  - cbn [accumulate fst] in H. unfold set_cost in H.
    case_bool_decide as Hproto; [by left|].
    destruct (decide (project_id p = k)) as [Heq|Hne].
    + rewrite Heq, lookup_insert_eq in H. inversion H.
      right. split; [congruence|]. exists p. split; [left | done].
    + rewrite lookup_insert_ne in H by exact Hne. by left.
  - right. split; [exact Hk|]. exists q. split; [by right | done].
Qed.

(** X19: every cost in [projectCosts] comes from the report: it is the
    display cost of an entry of the report with that id; nothing is ever
    stored under [__proto__]. *)
Theorem stored_costs_come_from_report (usages : list UsageItem)
    (k : jsstring) (v : float) :
  projectCosts (usage_snapshot usages) !! k = Some v ->
  k <> js "__proto__"
  /\ exists p, p ∈ usages /\ project_id p = k
               /\ v = displayCost (projectTotal p).
Proof.
  unfold usage_snapshot. cbn [projectCosts]. intros H.
  apply costs_fold_inv in H as [H|(Hk & p & Hp & Hid & Hv)].
  { cbv in H. discriminate H. }
  split; [exact Hk | eauto].
Qed.

End Report.

Section Record.

(** X20: the record of an account carries the fields of the user as the
    platform returned them: only [credit], [totalUsage], [totalCost] and
    [freeQuotaLimit] are set by the server, every other property is the one
    of the user. *)
Theorem account_data_keeps_user_fields (user : jsvalue) (u : UsageData)
    (k : jsstring) :
  k <> js "credit" -> k <> js "totalUsage" ->
  k <> js "totalCost" -> k <> js "freeQuotaLimit" ->
  own k (account_data user u) = own k (spread user).
Proof.
  intros H1 H2 H3 H4. unfold account_data.
  by rewrite !own_define_ne.
Qed.

End Record.

(** * Further runs on concrete inputs *)

Section FurtherRuns.

Example parseInt_decimal : parseInt (js "12") = Some 12%Z.
Proof. reflexivity. Qed.

Example parseInt_prefix : parseInt (js "  42abc") = Some 42%Z.
Proof. reflexivity. Qed.

Example parseInt_negative : parseInt (js "-7") = Some (-7)%Z.
Proof. reflexivity. Qed.

Example parseInt_hexadecimal : parseInt (js "0x1f") = Some 31%Z.
Proof. reflexivity. Qed.

Example parseInt_no_digit : parseInt (js "abc") = None /\ parseInt (js "0x") = None.
Proof. split; reflexivity. Qed.

Example env_accounts_are_trimmed :
  getEnvAccounts (Some (js " A : tokenA ,B:tokenB"))
  = [account_a; account_b].
Proof. reflexivity. Qed.

Example env_token_is_cut_at_colon :
  getEnvAccounts (Some (js "A:tok:en"))
  = [{| name := js "A"; token := js "tok" |}].
Proof. reflexivity. Qed.

Example wrong_password_is_refused :
  login (repeat 171 24) (js "t1") (js "t1") (JStr (js "secret2")) logged_in
  = Returned WrongPassword logged_in.
Proof. reflexivity. Qed.

(** The entry at index 1 of the stored list is [null]: the list without it is
    saved and the handler sends no answer. *)
Example delete_of_a_null_entry :
  server_accounts_delete (js "1") holed
  = (None,
     ready (Some {| sessions_json := Absent;
                    accounts_json := Regular (Json [account_value account_a]);
                    password_json := Absent |})).
Proof. reflexivity. Qed.

(** A header of two pairs without a percent sign. *)
Lemma parseCookies_without_percent_witness :
  is_Some (parseCookies {| h_cookie := Some (js "theme=dark; sid=abc");
                           h_authorization := None;
                           h_admin_password := None |}).
Proof.
  refine (proj1 (parseCookies_without_percent _ _)).
  intros header H. inversion H; subst header.
  apply (bool_decide_unpack _). vm_compute. exact I.
Defined.

(** The id made from 24 bytes. *)
Lemma session_id_round_trip_witness :
  length (toHex (repeat 171 24)) = 48%nat.
Proof.
  refine (proj1 (session_id_round_trip (repeat 171 24) _)).
  apply Forall_forall. intros b Hb.
  apply list_elem_of_In, repeat_spec in Hb. subst b. reflexivity.
Defined.

(** A login with the password of the environment. *)
Lemma login_opens_gate_witness :
  exists sid w1,
    login (repeat 171 24) (js "t1") (js "t1") (JStr (js "secret1")) logged_in
    = Returned (LoggedIn sid) w1
    /\ (exists w2, requireAuth (js "t2") (cookie_request sid) w1 = Next w2)
    /\ (exists w2, requireAuth (js "t2") (bearer_request sid) w1 = Next w2)
    /\ (exists w2, session_check (js "t2") (cookie_request sid) w1 = Returned true w2).
Proof.
  apply (login_opens_gate (repeat 171 24) (js "t1") (js "t1") (js "t2")
           (js "secret1") logged_in).
  - apply Forall_forall. intros b Hb.
    apply list_elem_of_In, repeat_spec in Hb. subst b. reflexivity.
  - discriminate.
  - split; [discriminate | left; reflexivity].
Defined.

(** The logout of the stored session. *)
Lemma logout_forgets_witness :
  exists w', logout (cookie_request sid0) logged_in = Returned tt w'
    /\ session_check (js "t2") (cookie_request sid0) w' = Returned false w'.
Proof.
  eexists. split; [reflexivity|].
  refine (proj1 (logout_forgets (js "t2") (cookie_request sid0) logged_in _ _)).
  reflexivity.
Defined.

(** A session created on a disk with a configuration directory. *)
Lemma session_survives_restart_witness :
  exists w', createSession (repeat 171 24) (js "t1") (js "t1")
               (JStr (js "secret1")) logged_in
             = Returned sid0 w'
    /\ sessions (restart w') !! sid0
       = Some {| password := JStr (js "secret1"); createdAt := js "t1";
                 lastAccessedAt := js "t1" |}.
Proof.
  eexists. split; [reflexivity|].
  refine (proj1 (proj2 (proj2
    (session_survives_restart (repeat 171 24) (js "t1") (js "t1")
       (JStr (js "secret1")) (js "t2") logged_in _ sid0 _ _)))).
  - split; [reflexivity|]. eexists. split; [reflexivity | discriminate].
  - reflexivity.
Defined.


(** An account whose token the platform does not accept. *)
Lemma missing_user_is_reported_as_success_witness :
  account_task (account_value account_b) refusing
  = Fulfilled (Success (JStr (js "B"))
                 [(js "credit", JNum 500); (js "totalUsage", JNum 0);
                  (js "totalCost", JNum 0); (js "freeQuotaLimit", JNum 5)]
                 (JObj [])).
Proof.
  refine (proj1 (missing_user_is_reported_as_success (account_value account_b) _
                   refusing _ refused_body
                   eq_refl eq_refl eq_refl eq_refl eq_refl eq_refl)).
Defined.

(** A usage query that times out. *)
Lemma usage_failure_looks_like_no_usage_witness :
  account_task (account_value account_a) (answering NetTimeout)
  = account_task (account_value account_a)
      (with_usage (NetBody NoUsages) (answering NetTimeout)).
Proof.
  apply (usage_failure_looks_like_no_usage (account_value account_a)
           (answering NetTimeout) RequestTimeout).
  reflexivity.
Defined.

Lemma plain_A : plain_field (js "A") /\ plain_field (js "tokenA").
Proof.
  split; (split; [discriminate|]);
    (split; [apply (bool_decide_unpack _); vm_compute; exact I|]);
    (split; [apply (bool_decide_unpack _); vm_compute; exact I | reflexivity]).
Defined.

Lemma plain_B : plain_field (js "B") /\ plain_field (js "tokenB").
Proof.
  split; (split; [discriminate|]);
    (split; [apply (bool_decide_unpack _); vm_compute; exact I|]);
    (split; [apply (bool_decide_unpack _); vm_compute; exact I | reflexivity]).
Defined.

(** Two accounts written as [A:tokenA,B:tokenB]. *)
Lemma getEnvAccounts_round_trip_witness :
  getEnvAccounts (Some (env_format [account_a; account_b]))
  = [account_a; account_b].
Proof.
  apply (getEnvAccounts_round_trip [account_a; account_b]).
  intros a Ha. apply elem_of_cons in Ha as [->|Ha]; [exact plain_A|].
  apply list_elem_of_singleton in Ha. subst a. exact plain_B.
Defined.

(** A trailing comma. *)
Lemma getEnvAccounts_drops_all_witness :
  getEnvAccounts (Some (js "A:tokenA,")) = [].
Proof.
  apply (getEnvAccounts_drops_all (js "A:tokenA,") []).
  - right. left.
  - apply not_elem_of_nil.
Defined.

(** The second of two stored accounts. *)
Lemma delete_stored_account_witness :
  exists d', server_accounts_delete (index_key 1) stocked = (Some Done, d')
    /\ loadServerAccounts d' = (Some [account_value account_a], d').
Proof.
  refine (proj1 (proj2 (delete_stored_account 1 stocked stocked
                          [account_value account_a; account_value account_b]
                          eq_refl eq_refl))
            [account_a; account_b] eq_refl _).
  cbn. lia.
Defined.

(** Two accounts posted on a disk without a configuration directory. *)
Lemma posted_accounts_are_listed_witness :
  exists d', server_accounts_post
               (JArr [account_value account_a; account_value account_b])
               writable_disk
             = (Some Done, d')
    /\ server_accounts_get (Some (js "C:tokenC")) d'
       = (Some (account_value
                  <$> [{| name := js "C"; token := js "tokenC" |};
                       account_a; account_b]), d').
Proof.
  destruct (posted_accounts_are_listed
              [account_value account_a; account_value account_b]
              (Some (js "C:tokenC")) writable_disk eq_refl)
    as (d' & Hpost & _ & Hget).
  exists d'. split; [exact Hpost|].
  exact (Hget [account_a; account_b] eq_refl).
Defined.

(** The cost stored for project [a], whose raw cost is 0.071. *)
Lemma stored_costs_come_from_report_witness :
  exists p, p ∈ [project_a; project_b] /\ project_id p = js "a"
            /\ 0.08%float = displayCost (projectTotal p).
Proof.
  refine (proj2 (stored_costs_come_from_report [project_a; project_b] (js "a")
                   0.08%float _)).
  vm_compute. reflexivity.
Defined.

(** The [username] of the user. *)
Lemma account_data_keeps_user_fields_witness :
  own (js "username")
    (account_data (chain (js "me") (chain (js "data") me_body)) initial_usage)
  = Some (JStr (js "ann")).
Proof.
  rewrite (account_data_keeps_user_fields _ initial_usage (js "username"));
    [reflexivity | discriminate..].
Defined.

End FurtherRuns.
